(** * hcrp.labelling: interactive annotation of microscopy stacks

    A shallow embedding of [src/hcrp/labelling.py].

    Conventions of the embedding.
    - Data coordinates, means and table cells are Python floats; they are
      modelled by exact rationals [Q], so rounding error of IEEE arithmetic
      is outside the model.  [nan] is kept as a separate value.
    - A 2-D numpy array is a list of rows of integer pixel values.
    - numpy arrays handed to the OpenCV code live in a store indexed by
      object identity, so that copies and in-place drawing are visible.
    - What the operator does in a window is an input script: the events the
      GUI event loop will deliver.  A call that waits for an operator whose
      script is exhausted is [Blocked].
    - Everything the program does to the outside (windows, prints, files)
      is appended to a trace. *)

From Stdlib Require Import ZArith QArith Lia List Ascii String.
From stdpp Require Import base option list gmap strings pretty.

Local Open Scope Z_scope.

(** ** Python and numpy values *)

Module Py.

(** A Python float that is either finite or [nan]. *)
Inductive float :=
| Fin (q : Q)
| NaN.

(** [int(x)] on a finite float: truncation toward zero. *)
Definition int (x : Q) : Z := Z.quot (Qnum x) (Zpos (Qden x)).

(** Normalisation of one slice bound against a length [n], as
    [slice.indices] does: negative bounds count from the end, and the
    result is clipped to [0, n]. *)
Definition slice_bound (n i : Z) : Z :=
  if i <? 0 then Z.max 0 (i + n) else Z.min i n.

(** [l[start:stop]] *)
Definition slice {A} (l : list A) (start stop : Z) : list A :=
  let n := Z.of_nat (length l) in
  let lo := slice_bound n start in
  let hi := slice_bound n stop in
  take (Z.to_nat (hi - lo)) (drop (Z.to_nat lo) l).

(** [l[i]] with Python's negative indices; [None] stands for IndexError. *)
Definition index {A} (l : list A) (i : Z) : option A :=
  let n := Z.of_nat (length l) in
  if (i <? - n) || (n <=? i) then None
  else l !! Z.to_nat (if i <? 0 then i + n else i).

(** [s.split(sep)] for a one-character separator, as the non-empty list
    [first :: rest]. *)
Fixpoint split (sep : ascii) (s : string) : string * list string :=
  match s with
  | EmptyString => (EmptyString, [])
  | String c s' =>
      let '(w, ws) := split sep s' in
      if Ascii.eqb c sep then (EmptyString, w :: ws) else (String c w, ws)
  end.

(** [s.split(sep)[0]] *)
Definition split_first (sep : ascii) (s : string) : string := fst (split sep s).

(** [s.split(sep)[-1]] *)
Definition split_last (sep : ascii) (s : string) : string :=
  let '(w, ws) := split sep s in List.last ws w.

(** [s.endswith(suffix)] *)
Definition endswith (s suffix : string) : bool :=
  let n := String.length s in
  let k := String.length suffix in
  (k <=? n)%nat && String.eqb (String.substring (n - k) k s) suffix.

End Py.

(** A single-channel image: rows of pixel values. *)
Definition image := list (list Z).

(** A stack as read from a TIFF file, indexed [z, y, x, channel]. *)
Definition stack := list (list (list (list Z))).

Module np.

(** [a[y1:y2, x1:x2]] *)
Definition crop (a : image) (y1 y2 x1 x2 : Z) : image :=
  map (fun row => Py.slice row x1 x2) (Py.slice a y1 y2).

Definition total (a : image) : Z := fold_right Z.add 0 (concat a).

Definition count (a : image) : nat := length (concat a).

(** [np.mean(a)]: the mean over all elements as a float; an array without
    elements gives [nan]. *)
Definition mean (a : image) : Py.float :=
  match count a with
  | O => Py.NaN
  | S _ => Py.Fin (inject_Z (total a) / inject_Z (Z.of_nat (count a)))
  end.

(** [(a / 256).astype(np.uint8)] and [(a // 256).astype(np.uint8)] on
    pixel values: the high byte, wrapped to eight bits. *)
Definition to8bit (a : image) : image :=
  map (map (fun v => Z.land (Z.div v 256) 255)) a.

(** Number of channels of a stack, [s.shape[3]], read off its first pixel. *)
Definition channels (s : stack) : nat :=
  length (hd [] (hd [] (hd [] s))).

(** [layer[:, :, j]] for a layer indexed [y, x, channel]. *)
Definition channel (layer : list (list (list Z))) (j : nat) : image :=
  map (map (fun px => nth j px 0)) layer.

End np.

(** ** Exceptions *)

Inductive exn :=
| AssertionError (msg : string)
| IndexError
| AttributeError
| TypeError
| ValueError
| OSError (path : string).

(** ** The constrained selector *)

(** [(xmin, xmax, ymin, ymax)] in data coordinates. *)
Definition extent := (Q * Q * Q * Q)%type.

(** A pointer event, reduced to its position in data coordinates
    ([event.xdata], [event.ydata], what [_get_data_coords] returns). *)
Record MouseEvent := { xdata : Q; ydata : Q }.

(** The attributes of a [RectangleSelector] that the subclass reads and
    writes.  [extents] is held as the tuple last assigned to it. *)
Record RectangleSelector := {
  extents : extent;
  _allow_creation : bool;
  _eventpress : option MouseEvent;
  _extents_on_press : option extent;
  _active_handle : option string
}.

Definition set_extents (e : extent) (s : RectangleSelector) : RectangleSelector :=
  {| extents := e;
     _allow_creation := _allow_creation s;
     _eventpress := _eventpress s;
     _extents_on_press := _extents_on_press s;
     _active_handle := _active_handle s |}.

Module FixedSizeRectangleSelector.

(** [__init__(self, ax, onselect, size, **kwargs)]: no drag is in progress;
    the extent is [(0, size, 0, size)] and creation of new rectangles is
    switched off. *)
Definition __init__ (size : Q) : RectangleSelector :=
  {| extents := (0, size, 0, size)%Q;
     _allow_creation := false;
     _eventpress := None;
     _extents_on_press := None;
     _active_handle := None |}.

(** [_onmove(self, event)].  Reading [eventpress.xdata] without a press
    raises AttributeError, unpacking a missing snapshot raises TypeError. *)
Definition _onmove (self : RectangleSelector) (event : MouseEvent)
  : exn + RectangleSelector :=
  let eventpress := _eventpress self in
  let move := bool_decide (_active_handle self = Some "C"%string) in
  match eventpress with
  | None => inl AttributeError
  | Some eventpress =>
      let dx := (xdata event - xdata eventpress)%Q in
      let dy := (ydata event - ydata eventpress)%Q in
      match _extents_on_press self with
      | None => inl TypeError
      | Some (x0, x1, y0, y1) =>
          if move
          then inr (set_extents (x0 + dx, x1 + dx, y0 + dy, y1 + dy)%Q self)
          else inr (set_extents (x0, x1, y0, y1) self)
      end
  end.

End FixedSizeRectangleSelector.

(** Modelled from the spec: the press handler of the host widget (matplotlib,
    not part of the repository).  The spec's drag gesture record "captures
    the pointer position at press time", and the pre-drag extent is the
    extent as it is when the button goes down.  [handle] is the handle the
    host found under the pointer ("C" for the whole shape). *)
Definition press (handle : option string) (event : MouseEvent)
    (s : RectangleSelector) : RectangleSelector :=
  {| extents := extents s;
     _allow_creation := _allow_creation s;
     _eventpress := Some event;
     _extents_on_press := Some (extents s);
     _active_handle := handle |}.

(** Modelled from the spec: the release handler of the host widget; the
    drag gesture record "exists only transiently during an active drag". *)
Definition release (s : RectangleSelector) : RectangleSelector :=
  {| extents := extents s;
     _allow_creation := _allow_creation s;
     _eventpress := None;
     _extents_on_press := None;
     _active_handle := None |}.

(** ** The region sampler *)

(** The variables shared by the closures of one [get_mean_region] call. *)
Record Session := {
  selector : RectangleSelector;
  means : list Py.float;
  centers : list (Q * Q);
  title : string
}.

(** The events the GUI event loop delivers while the window is open. *)
Inductive GuiEvent :=
| button_press (handle : option string) (event : MouseEvent)
| motion_notify (event : MouseEvent)
| button_release (completed : bool)
| key_press (key : string).

Section get_mean_region_closures.

Variable image_ : image.
Variable name : string.
Variable size : Q.

(** [onselect(eclick, erelease)] *)
Definition onselect (st : Session) : Session :=
  let '(e1, e2, e3, e4) := extents (selector st) in
  let x1 := Py.int e1 in
  let x2 := Py.int e2 in
  let y1 := Py.int e3 in
  let y2 := Py.int e4 in
  let region := np.crop image_ y1 y2 x1 x2 in
  {| selector := selector st;
     means := means st ++ [np.mean region];
     centers := centers st ++ [(inject_Z (x1 + x2) / 2, inject_Z (y1 + y2) / 2)%Q];
     title := title st |}.

(** [reset(event)] *)
Definition reset (key : string) (st : Session) : Session :=
  if String.eqb key "r"
  then {| selector := set_extents (0, size, 0, size)%Q (selector st);
          means := [];
          centers := centers st;
          title := "Select a region of interest for " +:+ name |}
  else st.

(** Modelled from the spec: how the host event loop routes one event.  A
    pointer move reaches [_onmove] only "during an active drag"; on a
    completed drag-release "the host display invokes the completion
    callback"; key presses go to the connected [reset]. *)
Definition dispatch (ev : GuiEvent) (st : Session) : exn + Session :=
  let with_selector s :=
    {| selector := s; means := means st; centers := centers st;
       title := title st |} in
  match ev with
  | button_press handle event =>
      inr (with_selector (press handle event (selector st)))
  | motion_notify event =>
      match _eventpress (selector st) with
      | None => inr st
      | Some _ =>
          match FixedSizeRectangleSelector._onmove (selector st) event with
          | inl e => inl e
          | inr s => inr (with_selector s)
          end
      end
  | button_release completed =>
      match _eventpress (selector st) with
      | None => inr st
      | Some _ =>
          let st' := if completed then onselect st else st in
          inr {| selector := release (selector st'); means := means st';
                 centers := centers st'; title := title st' |}
      end
  | key_press key => inr (reset key st)
  end.

(** [plt.show()]: the event loop runs until the operator closes the
    window. *)
Fixpoint show (events : list GuiEvent) (st : Session) : exn + Session :=
  match events with
  | [] => inr st
  | ev :: events' =>
      match dispatch ev st with
      | inl e => inl e
      | inr st' => show events' st'
      end
  end.

(** The session as [get_mean_region] sets it up before [plt.show()]. *)
Definition open_session : Session :=
  {| selector := FixedSizeRectangleSelector.__init__ size;
     means := [];
     centers := [];
     title := name |}.

End get_mean_region_closures.

(** ** The outside world *)

(** One mouse event as OpenCV hands it to a mouse callback
    ([flags] and [param] are not read by the program). *)
Record CvMouse := { cv_event : Z; cv_x : Z; cv_y : Z }.

(** One call of [cv2.waitKey(1)]: the mouse events delivered to the
    callback while it runs, and the key code it returns ([-1] without a
    key). *)
Record Poll := { mouse : list CvMouse; key_code : Z }.

Inductive Label :=
| row_name (s : string)
| row_number (n : nat).

(** A [pandas.DataFrame]: column labels and labelled rows, in order. *)
Record DataFrame := {
  columns : list string;
  rows : list (Label * list Py.float)
}.

(** What the program does to the outside, in order. *)
Inductive Effect :=
| namedWindow (window_name : string)
| imshow (window_name : string) (frame : image)
| setMouseCallback (window_name : string)
| destroyAllWindows
| figure (shown : image) (title_ : string)
| print (line_ : string)
| to_csv (path : string) (df : DataFrame) (index : bool)
| makedirs (path : string).

Record World := {
  heap : gmap positive image;
  waitKey_input : list Poll;
  show_input : list (list GuiEvent);
  trace : list Effect
}.

Definition set_heap (h : gmap positive image) (w : World) : World :=
  {| heap := h; waitKey_input := waitKey_input w;
     show_input := show_input w; trace := trace w |}.

Definition set_waitKey_input (polls : list Poll) (w : World) : World :=
  {| heap := heap w; waitKey_input := polls;
     show_input := show_input w; trace := trace w |}.

Definition set_show_input (sessions : list (list GuiEvent)) (w : World) : World :=
  {| heap := heap w; waitKey_input := waitKey_input w;
     show_input := sessions; trace := trace w |}.

Definition emit (e : Effect) (w : World) : World :=
  {| heap := heap w; waitKey_input := waitKey_input w;
     show_input := show_input w; trace := trace w ++ [e] |}.

(** Library functions whose results the program only passes on, and the
    parts of the machine it only reads. *)
Class Host := {
  (** [cv2.equalizeHist(img)] *)
  equalizeHist : image -> image;
  (** [cv2.circle(img, center, 3, (0, 0, 255), -1)], as the new pixels *)
  circle : image -> Z * Z -> image;
  (** [cv2.line(img, p, q, (0, 0, 255), 2)], as the new pixels *)
  line : image -> Z * Z -> Z * Z -> image;
  (** [str(a)] of an array, as an f-string inserts it *)
  array_str : image -> string;
  (** [skimage.io.imread(path)]; [None] when the file cannot be read *)
  imread : string -> option stack;
  (** [os.path.exists(path)] *)
  path_exists : string -> bool;
  (** [os.listdir(path)]; [None] when it fails *)
  listdir : string -> option (list string);
  (** whether [os.makedirs(path, exist_ok=True)] succeeds *)
  can_makedirs : string -> bool;
  (** whether a file can be created at [path] *)
  writable : string -> bool;
  (** [datetime.datetime.now().strftime("%Y%m%d%H%M%S")] *)
  now : string
}.

(** ** Computations: state, exceptions, and waiting for the operator *)

Inductive Outcome (A : Type) :=
| Return (a : A) (w : World)
| Raise (e : exn) (w : World)
| Blocked (w : World).

Arguments Return {A} a w.
Arguments Raise {A} e w.
Arguments Blocked {A} w.

Definition M (A : Type) := World -> Outcome A.

Definition ret {A} (a : A) : M A := fun w => Return a w.

Definition raise {A} (e : exn) : M A := fun w => Raise e w.

Definition bind {A B} (m : M A) (k : A -> M B) : M B :=
  fun w =>
    match m w with
    | Return a w' => k a w'
    | Raise e w' => Raise e w'
    | Blocked w' => Blocked w'
    end.

Notation "'let!' x ':=' m 'in' k" := (bind m (fun x => k))
  (at level 10, x pattern, m at level 100, k at level 200).
Notation "m ';;;' k" := (bind m (fun _ => k))
  (at level 100, k at level 200, right associativity).

Definition effect (e : Effect) : M unit := fun w => Return tt (emit e w).

(** [assert cond, msg] *)
Definition assert (cond : bool) (msg : string) : M unit :=
  if cond then ret tt else raise (AssertionError msg).

(** An optional value whose absence is the exception [e]. *)
Definition or_raise {A} (e : exn) (o : option A) : M A :=
  match o with
  | Some a => ret a
  | None => raise e
  end.

(** A new array object holding [a]. *)
Definition alloc (a : image) : M positive :=
  fun w =>
    let l := fresh (dom (heap w)) in
    Return l (set_heap (<[l := a]> (heap w)) w).

(** The pixels of the array object [l]; an argument that is no array has
    none of the array attributes. *)
Definition read (l : positive) : M image :=
  fun w => or_raise AttributeError (heap w !! l) w.

(** In-place drawing on the array object [l]. *)
Definition draw (l : positive) (f : image -> image) : M unit :=
  fun w => Return tt (set_heap (alter f l (heap w)) w).

(** ** The point collector *)

Definition EVENT_LBUTTONDOWN : Z := 1.

(** [ord("q")] *)
Definition ord_q : Z := 113.

Section point_collector.

Context `{Host}.

(** [mouse_callback(event, x, y, flags, param)], with the captured list
    [roi_points] passed in and out. *)
Definition mouse_callback (window_name : string)
    (image_with_roi_equalized : positive)
    (ev : CvMouse) (roi_points : list (Z * Z)) : M (list (Z * Z)) :=
  if cv_event ev =? EVENT_LBUTTONDOWN then
    let roi_points := roi_points ++ [(cv_x ev, cv_y ev)] in
    draw image_with_roi_equalized (fun a => circle a (cv_x ev, cv_y ev)) ;;;
    (if (1 <? length roi_points)%nat then
       let! p := or_raise IndexError (Py.index roi_points (-2)) in
       let! q := or_raise IndexError (Py.index roi_points (-1)) in
       draw image_with_roi_equalized (fun a => line a p q)
     else ret tt) ;;;
    let! shown := read image_with_roi_equalized in
    effect (imshow window_name shown) ;;;
    ret roi_points
  else ret roi_points.

(** The mouse events delivered during one [cv2.waitKey] call. *)
Fixpoint deliver (window_name : string) (buffer : positive)
    (evs : list CvMouse) (roi_points : list (Z * Z)) : M (list (Z * Z)) :=
  match evs with
  | [] => ret roi_points
  | ev :: evs' =>
      let! roi_points := mouse_callback window_name buffer ev roi_points in
      deliver window_name buffer evs' roi_points
  end.

(** [while True: key = cv2.waitKey(1) & 0xFF; if key == ord("q"): break]
    over the operator's script. *)
Fixpoint waitKey_loop (polls : list Poll) (window_name : string)
    (buffer : positive) (roi_points : list (Z * Z)) : M (list (Z * Z)) :=
  fun w =>
    match polls with
    | [] => Blocked (set_waitKey_input [] w)
    | p :: polls' =>
        match deliver window_name buffer (mouse p) roi_points
                (set_waitKey_input polls' w) with
        | Return roi_points w' =>
            if Z.land (key_code p) 255 =? ord_q
            then Return roi_points w'
            else waitKey_loop polls' window_name buffer roi_points w'
        | Raise e w' => Raise e w'
        | Blocked w' => Blocked w'
        end
    end.

(** [get_spline(image, name, window_name=None)] *)
Definition get_spline (image_ : positive) (name : string)
    (window_name : option string) : M (list (Z * Z)) :=
  let! pixels := read image_ in
  let! image_with_roi := alloc pixels in
  let! copied := read image_with_roi in
  let! img8bit := alloc (np.to8bit copied) in
  let! narrowed := read img8bit in
  let! image_with_roi_equalized := alloc (equalizeHist narrowed) in
  let roi_points := [] in
  let window_name :=
    match window_name with
    | None => "Manually input Spline for " +:+ name
    | Some window_name => window_name
    end in
  effect (namedWindow window_name) ;;;
  let! shown := read image_with_roi_equalized in
  effect (imshow window_name shown) ;;;
  effect (setMouseCallback window_name) ;;;
  let! roi_points :=
    (fun w => waitKey_loop (waitKey_input w) window_name
                image_with_roi_equalized roi_points w) in
  effect destroyAllWindows ;;;
  ret roi_points.

(** [get_contour(image, name)] *)
Definition get_contour (image_ : positive) (name : string) : M (list (Z * Z)) :=
  let! roi_points :=
    get_spline image_ name (Some ("Manually input Contour for " +:+ name)) in
  ret roi_points.

End point_collector.

(** ** get_mean_region *)

(** The arguments of one call. *)
Record Call := {
  arg_image : image;
  arg_high_contrast : option image;
  arg_name : string;
  arg_size : Q;
  arg_vmax : option Q
}.

(** The image a call displays: [high_contrast], or the raw image when
    [high_contrast is None]. *)
Definition displayed (c : Call) : image :=
  from_option id (arg_image c) (arg_high_contrast c).

(** What one call does once its window has been closed after [events]:
    it returns [(means[-1], centers[-1])], or, when that raises IndexError,
    makes the call on the right. *)
Definition after_show (c : Call) (events : list GuiEvent)
  : exn + (Py.float * (Q * Q) + Call) :=
  let high_contrast := displayed c in
  match show (arg_image c) (arg_name c) (arg_size c) events
          (open_session (arg_name c) (arg_size c)) with
  | inl e => inl e
  | inr st =>
      match last (means st), last (centers st) with
      | Some m, Some ctr => inr (inl (m, ctr))
      | _, _ =>
          inr (inr {| arg_image := arg_image c;
                      arg_high_contrast := Some high_contrast;
                      arg_name := arg_name c;
                      arg_size := arg_size c;
                      arg_vmax := arg_vmax c |})
      end
  end.

(** The recursion of [get_mean_region] over the windows the operator will
    still close. *)
Fixpoint get_mean_region_rec (sessions : list (list GuiEvent)) (c : Call)
  : M (Py.float * (Q * Q)) :=
  fun w =>
    let w := emit (figure (displayed c) (arg_name c)) w in
    match sessions with
    | [] => Blocked (set_show_input [] w)
    | events :: sessions' =>
        let w := set_show_input sessions' w in
        match after_show c events with
        | inl e => Raise e w
        | inr (inl result) => Return result w
        | inr (inr again) =>
            get_mean_region_rec sessions' again
              (emit (print "No region selected.") w)
        end
    end.

(** [get_mean_region(image, high_contrast, name, size=50, vmax=None)] *)
Definition get_mean_region (image_ : image) (high_contrast : option image)
    (name : string) (size : Q) (vmax : option Q) : M (Py.float * (Q * Q)) :=
  fun w =>
    get_mean_region_rec (show_input w)
      {| arg_image := image_; arg_high_contrast := high_contrast;
         arg_name := name; arg_size := size; arg_vmax := vmax |} w.

(** ** Tables *)

Module pd.

(** [pd.DataFrame(columns=columns)] *)
Definition empty (columns : list string) : DataFrame :=
  {| columns := columns; rows := [] |}.

(** [pd.DataFrame(points, columns=["x", "y"])] *)
Definition of_points (points : list (Z * Z)) : DataFrame :=
  {| columns := ["x"; "y"]%string;
     rows := imap (fun i p => (row_number i,
                     [Py.Fin (inject_Z (fst p)); Py.Fin (inject_Z (snd p))]))
               points |}.

(** [df[column] = value] for a new column and a scalar value. *)
Definition set_column (column : string) (value : Py.float) (df : DataFrame)
  : DataFrame :=
  {| columns := columns df ++ [column];
     rows := map (fun r => (fst r, snd r ++ [value])) (rows df) |}.

Definition Label_eqb (a b : Label) : bool :=
  match a, b with
  | row_name s, row_name t => String.eqb s t
  | row_number n, row_number m => Nat.eqb n m
  | _, _ => false
  end.

Fixpoint put_row (k : Label) (values : list Py.float)
    (rs : list (Label * list Py.float)) : list (Label * list Py.float) :=
  match rs with
  | [] => [(k, values)]
  | (k', old) :: rs' =>
      if Label_eqb k' k then (k', values) :: rs'
      else (k', old) :: put_row k values rs'
  end.

(** [df.loc[key] = values]: the row labelled [key] is replaced, or added
    at the end; a row of the wrong width is a ValueError. *)
Definition set_loc (key_ : string) (values : list Py.float) (df : DataFrame)
  : M DataFrame :=
  if (length values =? length (columns df))%nat
  then ret {| columns := columns df;
              rows := put_row (row_name key_) values (rows df) |}
  else raise ValueError.

End pd.

(** ** label and label_folder *)

Section labelling.

Context `{Host}.

(** [df.to_csv(path, index=index)] *)
Definition write_csv (path : string) (df : DataFrame) (index : bool) : M unit :=
  if writable path then effect (to_csv path df index)
  else raise (OSError path).

(** The body of the loop over [enumerate(channel_names[:-1])] in [label],
    for one [(j, channel_name)]. *)
Definition label_channel (layer : list (list (list Z))) (channels_ : nat)
    (name : string) (mid_layer : Z) (size : Q)
    (j : nat) (channel_name : string)
    (dfs : DataFrame * DataFrame) : M (DataFrame * DataFrame) :=
  let '(background_df, signal_background_df) := dfs in
  (if (j <? channels_)%nat then ret tt else raise IndexError) ;;;
  let channel := np.channel layer j in
  let normalized_channel := np.to8bit channel in
  let normalized_channel := equalizeHist normalized_channel in
  let! (background, background_center) :=
    get_mean_region channel (Some normalized_channel)
      (name +:+ " Background " +:+ channel_name) size None in
  let! (signal_background, signal_background_center) :=
    get_mean_region channel (Some normalized_channel)
      (name +:+ " Signal + Background " +:+ channel_name) size None in
  let! background_df :=
    pd.set_loc channel_name
      [background;
       Py.Fin (fst background_center); Py.Fin (snd background_center);
       Py.Fin (inject_Z mid_layer); Py.Fin size] background_df in
  let! signal_background_df :=
    pd.set_loc channel_name
      [signal_background;
       Py.Fin (fst signal_background_center);
       Py.Fin (snd signal_background_center);
       Py.Fin (inject_Z mid_layer); Py.Fin size] signal_background_df in
  ret (background_df, signal_background_df).

(** [for j, channel_name in enumerate(channel_names[:-1]): ...] *)
Fixpoint label_channels (layer : list (list (list Z))) (channels_ : nat)
    (name : string) (mid_layer : Z) (size : Q)
    (j : nat) (channel_names : list string)
    (dfs : DataFrame * DataFrame) : M (DataFrame * DataFrame) :=
  match channel_names with
  | [] => ret dfs
  | channel_name :: channel_names' =>
      let! dfs :=
        label_channel layer channels_ name mid_layer size j channel_name dfs in
      label_channels layer channels_ name mid_layer size (S j)
        channel_names' dfs
  end.

Definition table_columns : list string :=
  ["mean_intensity"; "window_length"; "x"; "y"; "z"]%string.

(** [label(stack_path, out, mid_frac, channel_names, size)] *)
Definition label (stack_path out : string) (mid_frac : Q)
    (channel_names : list string) (size : Q) : M unit :=
  let! last_name := or_raise IndexError (Py.index channel_names (-1)) in
  assert (String.eqb last_name "nuclear") "The last channel must be nuclear." ;;;
  let! stack_ :=
    or_raise (OSError (stack_path +:+ ".tif")) (imread (stack_path +:+ ".tif")) in
  let name := Py.split_last "/" stack_path in
  let mid_layer := Py.int (mid_frac * inject_Z (Z.of_nat (length stack_))) in
  let! layer := or_raise IndexError (Py.index stack_ mid_layer) in
  (if (3 <? np.channels stack_)%nat then ret tt else raise IndexError) ;;;
  (* the view [stack[mid_layer, :, :, 3]] as an array object of its own;
     nothing below writes through it *)
  let! nuclear := alloc (np.channel layer 3) in
  let! shown_as := read nuclear in
  let! contour := get_contour nuclear (array_str shown_as) in
  (* np.hstack of no points is an empty one-dimensional array, from
     which no two-column frame can be built *)
  (if bool_decide (contour = []) then raise ValueError else ret tt) ;;;
  let contour_out := out +:+ "/" +:+ name +:+ "_contour.csv" in
  let contour_df := pd.of_points contour in
  let contour_df := pd.set_column "z" (Py.Fin (inject_Z mid_layer)) contour_df in
  write_csv contour_out contour_df false ;;;
  effect (print ("Contour points saved to " +:+ contour_out +:+ ".")) ;;;
  let! spline := get_spline nuclear (array_str shown_as) None in
  let spline_out := out +:+ "/" +:+ name +:+ "_spline.csv" in
  let spline_df := pd.of_points spline in
  let spline_df := pd.set_column "z" (Py.Fin (inject_Z mid_layer)) spline_df in
  write_csv spline_out spline_df false ;;;
  effect (print ("Spline points saved to " +:+ out +:+ "/" +:+ name
                 +:+ "_spline.csv.")) ;;;
  let background_out := out +:+ "/" +:+ name +:+ "_background.csv" in
  let signal_background_out :=
    out +:+ "/" +:+ name +:+ "_signal_background.csv" in
  let columns := table_columns in
  let background_df := pd.empty columns in
  let signal_background_df := pd.empty columns in
  let! (background_df, signal_background_df) :=
    label_channels layer (np.channels stack_) name mid_layer size 0
      (Py.slice channel_names 0 (-1))
      (background_df, signal_background_df) in
  write_csv background_out background_df true ;;;
  effect (print ("Backgound data saved to " +:+ background_out +:+ ".")) ;;;
  write_csv signal_background_out signal_background_df true ;;;
  effect (print ("Signal + Background data saved to "
                 +:+ signal_background_out +:+ ".")) ;;;
  effect (print ("Finished labelling " +:+ stack_path +:+ ".")).

(** The default of [channel_names]. *)
Definition default_channel_names : list string :=
  ["brk"; "dpp"; "pMad"; "nuclear"]%string.

(** [for i, name in enumerate(stack_names): ...] in [label_folder] *)
Fixpoint label_stacks (folder data_out : string) (mid_frac : Q)
    (channel_names : list string) (total : nat)
    (i : nat) (stack_names : list string) : M unit :=
  match stack_names with
  | [] => ret tt
  | name :: stack_names' =>
      effect (print ("Labelling " +:+ name +:+ " (" +:+ pretty (i + 1)%nat
                     +:+ "/" +:+ pretty total +:+ ").")) ;;;
      label (folder +:+ "/" +:+ name) data_out mid_frac channel_names 50 ;;;
      label_stacks folder data_out mid_frac channel_names total (S i)
        stack_names'
  end.

(** [label_folder(folder, mid_frac, channel_names)] *)
Definition label_folder (folder : string) (mid_frac : Q)
    (channel_names : list string) : M string :=
  assert (path_exists folder) (folder +:+ " does not exist.") ;;;
  let! last_name := or_raise IndexError (Py.index channel_names (-1)) in
  assert (String.eqb last_name "nuclear") "The last channel must be nuclear." ;;;
  let! names := or_raise (OSError folder) (listdir folder) in
  let stack_names :=
    map (Py.split_first ".")
      (filter (fun name => Is_true (Py.endswith name ".tif")) names) in
  let current := now in
  let data_out := "data/" +:+ Py.split_last "/" folder +:+ "_" +:+ current in
  (if can_makedirs data_out then effect (makedirs data_out)
   else raise (OSError data_out)) ;;;
  label_stacks folder data_out mid_frac channel_names (length stack_names)
    0 stack_names ;;;
  effect (print "Finished labelling all images.") ;;;
  ret data_out.

End labelling.

(** ** Vocabulary of the statements *)

Definition width (e : extent) : Q := let '(x0, x1, _, _) := e in (x1 - x0)%Q.

Definition height (e : extent) : Q := let '(_, _, y0, y1) := e in (y1 - y0)%Q.

(** The extent [e] moved by [(dx, dy)]. *)
Definition shifted (dx dy : Q) (e : extent) : extent :=
  let '(x0, x1, y0, y1) := e in (x0 + dx, x1 + dx, y0 + dy, y1 + dy)%Q.

Definition midpoint (a b : Q) : Q := ((a + b) / 2)%Q.

(** Every pixel of [a] has the value [v]. *)
Definition constant (v : Z) (a : image) : Prop := Forall (Forall (eq v)) a.

(** The samples a session holds: its means, each with the center that was
    appended together with it. *)
Definition recorded (st : Session) : list (Py.float * (Q * Q)) :=
  zip (means st)
      (drop (length (centers st) - length (means st)) (centers st)).

(** Every center is appended together with a mean, and only means are ever
    dropped. *)
Definition lists_ok (st : Session) : Prop :=
  (length (means st) <= length (centers st))%nat.

(** A drag is in progress exactly when both press-time snapshots are set,
    and every extent the selector holds is [size] wide and high. *)
Definition selector_ok (size : Q) (s : RectangleSelector) : Prop :=
  (width (extents s) == size /\ height (extents s) == size)%Q /\
  (is_Some (_eventpress s) -> is_Some (_extents_on_press s)) /\
  (forall e, _extents_on_press s = Some e ->
             (width e == size /\ height e == size)%Q).

(** The integer-valued extent [(x1, x2, y1, y2)]. *)
Definition pixel_extent (x1 x2 y1 y2 : Z) : extent :=
  (inject_Z x1, inject_Z x2, inject_Z y1, inject_Z y2).

(** The call [get_mean_region] makes on itself: the local variables
    [image], [high_contrast], [name], [size], [vmax] as they stand after
    [high_contrast] has received its default. *)
Definition again (c : Call) : Call :=
  {| arg_image := arg_image c;
     arg_high_contrast := Some (displayed c);
     arg_name := arg_name c;
     arg_size := arg_size c;
     arg_vmax := arg_vmax c |}.

(** What [n] windows closed without a sample leave in the trace. *)
Definition retry_trace (c : Call) (n : nat) : list Effect :=
  concat (replicate n [figure (displayed c) (arg_name c);
                       print "No region selected."]).

(** A [rows] by [cols] image with the value [v] everywhere. *)
Definition flat_image (rows_ cols : nat) (v : Z) : image :=
  replicate rows_ (replicate cols v).

(** ** Specifications of computations *)

(** [m], started in a world that satisfies [P], ends in one of three ways:
    it returns [a] in a world with [Q a], raises [e] in a world with
    [E e], or is left waiting for the operator in a world with [B]. *)
Definition triple {A} (P : World -> Prop) (m : M A)
    (Q : A -> World -> Prop) (E : exn -> World -> Prop)
    (B : World -> Prop) : Prop :=
  forall w, P w ->
    match m w with
    | Return a w' => Q a w'
    | Raise e w' => E e w'
    | Blocked w' => B w'
    end.

(** The world a computation ends in, however it ends. *)
Definition world_of {A} (o : Outcome A) : World :=
  match o with
  | Return _ w => w
  | Raise _ w => w
  | Blocked w => w
  end.

(** Every array of [h0] is still there, with the same pixels. *)
Definition keeps (h0 : gmap positive image) (w : World) : Prop :=
  h0 ⊆ heap w.

(** A computation that keeps the arrays of [h0] however it ends. *)
Definition preserving (h0 : gmap positive image) {A} (m : M A) : Prop :=
  triple (keeps h0) m (fun _ => keeps h0) (fun _ => keeps h0) (keeps h0).

(** The point collector, as the spec words it: the coordinates of the
    left-button-down events, in the order of the events. *)
Definition is_click (ev : CvMouse) : bool := cv_event ev =? EVENT_LBUTTONDOWN.

Definition clicks (evs : list CvMouse) : list (Z * Z) :=
  map (fun ev => (cv_x ev, cv_y ev)) (List.filter is_click evs).

(** The poll on which the loop of [get_spline] breaks. *)
Definition quits (p : Poll) : bool := Z.land (key_code p) 255 =? ord_q.

Definition left_click (x y : Z) : CvMouse :=
  {| cv_event := EVENT_LBUTTONDOWN; cv_x := x; cv_y := y |}.

(** An effect with the name of its OpenCV window blanked. *)
Definition untitled (e : Effect) : Effect :=
  match e with
  | namedWindow _ => namedWindow ""
  | imshow _ frame => imshow "" frame
  | setMouseCallback _ => setMouseCallback ""
  | e => e
  end.

(** Two worlds that differ at most in the names of OpenCV windows. *)
Definition alike (w1 w2 : World) : Prop :=
  heap w1 = heap w2 /\
  waitKey_input w1 = waitKey_input w2 /\
  show_input w1 = show_input w2 /\
  map untitled (trace w1) = map untitled (trace w2).

Definition outcome_alike {A} (o1 o2 : Outcome A) : Prop :=
  match o1, o2 with
  | Return a1 w1, Return a2 w2 => a1 = a2 /\ alike w1 w2
  | Raise e1 w1, Raise e2 w2 => e1 = e2 /\ alike w1 w2
  | Blocked w1, Blocked w2 => alike w1 w2
  | _, _ => False
  end.

(** ** A host for the examples *)

(** A world in which nothing has happened and nobody is at the screen. *)
Definition quiet : World :=
  {| heap := ∅; waitKey_input := []; show_input := []; trace := [] |}.

(** Sets the pixel at column [x], row [y] to 255. *)
Definition dot (a : image) (p : Z * Z) : image :=
  alter (fun row => <[Z.to_nat (fst p) := 255]> row) (Z.to_nat (snd p)) a.

(** A stack of two layers of 4 by 4 pixels with four channels; the value
    of a pixel tells its place. *)
Definition small_stack : stack :=
  map (fun z =>
    map (fun y =>
      map (fun x =>
        map (fun ch => 4096 * ch + 256 * z + 16 * y + x) [0; 1; 2; 3])
        [0; 1; 2; 3])
      [0; 1; 2; 3])
    [0; 1].

Definition example_host : Host :=
  {| equalizeHist := fun a => a;
     circle := dot;
     line := fun a p q => dot (dot a p) q;
     array_str := fun _ => "[[...]]"%string;
     imread := fun path =>
       if String.eqb path "scans/embryo.tif" then Some small_stack else None;
     path_exists := fun path => String.eqb path "scans";
     listdir := fun path =>
       if String.eqb path "scans"
       then Some ["embryo.tif"; "notes.txt"]%string else None;
     can_makedirs := fun _ => true;
     writable := fun _ => true;
     now := "20240506120000"%string |}.

(** A computation that returns: it neither raises nor is left waiting. *)
Definition returning {A} (P : World -> Prop) (m : M A)
    (Q : A -> World -> Prop) : Prop :=
  triple P m Q (fun _ _ => False) (fun _ => False).

(** The array [buffer] exists and the operator's script for the OpenCV
    window is [polls]. *)
Definition drawing_on (buffer : positive) (polls : list Poll) (w : World) : Prop :=
  is_Some (heap w !! buffer) /\ waitKey_input w = polls.

(** Three clicks, the last one in the poll that sees the quit key. *)
Definition three_clicks : list Poll :=
  [ {| mouse := [left_click 1 1]; key_code := -1 |};
    {| mouse := [left_click 5 5]; key_code := -1 |};
    {| mouse := [left_click 9 1]; key_code := 113 |} ].

(** Two computations that, run in worlds that are alike, end alike. *)
Definition related {A} (m1 m2 : M A) : Prop :=
  forall w1 w2, alike w1 w2 -> outcome_alike (m1 w1) (m2 w2).

(** ** Vocabulary for [label] and [label_folder] *)

Definition is_assertion (e : exn) : Prop := exists msg, e = AssertionError msg.

(** A computation in which no [assert] fails. *)
Definition never_asserts {A} (m : M A) : Prop :=
  triple (fun _ => True) m (fun _ _ => True)
    (fun e _ => ~ is_assertion e) (fun _ => True).


(** The values of the first row labelled [k], as [df.loc[k]] reads it. *)
Fixpoint row_values (k : Label) (rs : list (Label * list Py.float))
  : option (list Py.float) :=
  match rs with
  | [] => None
  | (k', values) :: rs' =>
      if pd.Label_eqb k' k then Some values else row_values k rs'
  end.

(** The position of the column labelled [column]. *)
Fixpoint column_position (column : string) (cols : list string) : option nat :=
  match cols with
  | [] => None
  | c :: cols' =>
      if String.eqb c column then Some 0%nat
      else S <$> column_position column cols'
  end.

(** [df.loc[key, column]]: the cell of the row labelled [key] under the
    column labelled [column], as a reader of the written table finds it. *)
Definition cell (df : DataFrame) (key_ column : string) : option Py.float :=
  match row_values (row_name key_) (rows df),
        column_position column (columns df) with
  | Some values, Some i => values !! i
  | _, _ => None
  end.

(** What a reader finds in the row of a channel under each of the five
    column names. *)
Record Cells := {
  under_mean_intensity : option Py.float;
  under_window_length : option Py.float;
  under_x : option Py.float;
  under_y : option Py.float;
  under_z : option Py.float
}.

Definition cells_of (df : DataFrame) (channel : string) : Cells :=
  {| under_mean_intensity := cell df channel "mean_intensity";
     under_window_length := cell df channel "window_length";
     under_x := cell df channel "x";
     under_y := cell df channel "y";
     under_z := cell df channel "z" |}.

(** The cells of a row that holds the sample [(mean, center)] of the layer
    [mid_layer] taken with a window of [size], as [label] lays them out:
    the center's x under "window_length", its y under "x", the layer under
    "y" and the window size under "z". *)
Definition shifted_cells (mean : Py.float) (center : Q * Q) (mid_layer : Z)
    (size : Q) : Cells :=
  {| under_mean_intensity := Some mean;
     under_window_length := Some (Py.Fin (fst center));
     under_x := Some (Py.Fin (snd center));
     under_y := Some (Py.Fin (inject_Z mid_layer));
     under_z := Some (Py.Fin size) |}.

(** The cells of the same row with every value under the column of its
    own name: the window size under "window_length", the center under "x"
    and "y", the layer under "z". *)
Definition named_cells (mean : Py.float) (center : Q * Q) (mid_layer : Z)
    (size : Q) : Cells :=
  {| under_mean_intensity := Some mean;
     under_window_length := Some (Py.Fin size);
     under_x := Some (Py.Fin (fst center));
     under_y := Some (Py.Fin (snd center));
     under_z := Some (Py.Fin (inject_Z mid_layer)) |}.

(** The two sampling calls [label] makes for the channel [j] named
    [channel] return [(mean, center)] and [(mean', center')]. *)
Definition sampled `{Host} (layer : list (list (list Z))) (name : string)
    (size : Q) (j : nat) (channel : string)
    (mean : Py.float) (center : Q * Q) (mean' : Py.float) (center' : Q * Q)
  : Prop :=
  exists w1 w2 w3,
    get_mean_region (np.channel layer j)
      (Some (equalizeHist (np.to8bit (np.channel layer j))))
      (name +:+ " Background " +:+ channel) size None w1
      = Return (mean, center) w2 /\
    get_mean_region (np.channel layer j)
      (Some (equalizeHist (np.to8bit (np.channel layer j))))
      (name +:+ " Signal + Background " +:+ channel) size None w2
      = Return (mean', center') w3.

(** The row of [channel] in the two tables holds, by column name, the
    shifted cells of the two samples taken for the channel [j]; it holds
    the named cells of a sample only if the window size is the index of
    the layer. *)
Definition channel_cells `{Host} (layer : list (list (list Z))) (name : string)
    (mid_layer : Z) (size : Q) (background_df signal_background_df : DataFrame)
    (j : nat) (channel : string) : Prop :=
  exists mean center mean' center',
    sampled layer name size j channel mean center mean' center' /\
    cells_of background_df channel = shifted_cells mean center mid_layer size /\
    cells_of signal_background_df channel
      = shifted_cells mean' center' mid_layer size /\
    (size <> inject_Z mid_layer ->
     forall m c,
       cells_of background_df channel <> named_cells m c mid_layer size /\
       cells_of signal_background_df channel <> named_cells m c mid_layer size).

(** An operator who clicks two contour points and one spline point, and
    confirms a selection in each of six sampling windows. *)
Definition diligent : World :=
  {| heap := ∅;
     waitKey_input :=
       [ {| mouse := [left_click 1 1; left_click 2 2]; key_code := 113 |};
         {| mouse := [left_click 0 3]; key_code := 113 |} ];
     show_input :=
       replicate 6
         [button_press (Some "C"%string) {| xdata := 1; ydata := 1 |};
          button_release true];
     trace := [] |}.

(** ** Vocabulary for sessions of the region sampler *)

(** Equality of extents as numbers, bound by bound. *)
Definition same_extent (e1 e2 : extent) : Prop :=
  let '(a0, a1, a2, a3) := e1 in
  let '(b0, b1, b2, b3) := e2 in
  (a0 == b0 /\ a1 == b1 /\ a2 == b2 /\ a3 == b3)%Q.

(** A drag pressed at [p] on handle [h] with the extent [e] snapshotted. *)
Definition dragging (h : option string) (p : MouseEvent) (e : extent)
    (s : RectangleSelector) : Prop :=
  _eventpress s = Some p /\ _extents_on_press s = Some e /\ _active_handle s = h.

(** Whether a button is held after [events], when [held] says whether one
    was held before. *)
Fixpoint held_after (held : bool) (events : list GuiEvent) : bool :=
  match events with
  | [] => held
  | button_press _ _ :: events' => held_after true events'
  | button_release _ :: events' => held_after false events'
  | _ :: events' => held_after held events'
  end.

(** The number of completed releases in [events] that end a press. *)
Fixpoint confirmations (held : bool) (events : list GuiEvent) : nat :=
  match events with
  | [] => 0
  | button_press _ _ :: events' => confirmations true events'
  | button_release completed :: events' =>
      (if held && completed then 1 else 0) + confirmations false events'
  | _ :: events' => confirmations held events'
  end.

Definition is_reset (ev : GuiEvent) : bool :=
  match ev with
  | key_press key => String.eqb key "r"
  | _ => false
  end.

(** A selector on which no button is held has no press-time snapshots, and
    creation of rectangles stays switched off. *)
Definition at_rest (s : RectangleSelector) : Prop :=
  _allow_creation s = false /\
  (_eventpress s = None ->
   _extents_on_press s = None /\ _active_handle s = None).

(** Two sessions that agree on the selector and the means, the first
    holding the centers of the second after some older ones. *)
Definition restarted (st1 st2 : Session) : Prop :=
  selector st1 = selector st2 /\
  means st1 = means st2 /\
  exists stale, centers st1 = stale ++ centers st2.

(** ** Vocabulary for the point collector *)

(** The title of the window [get_spline] opens. *)
Definition spline_title (name : string) (window_name : option string) : string :=
  match window_name with
  | None => "Manually input Spline for " +:+ name
  | Some window_name => window_name
  end.

(** ** Vocabulary for tables and output *)


(** A computation that, however it ends, has added to the trace only
    effects that satisfy [ok]. *)
Definition only_emits (ok : Effect -> Prop) {A} (m : M A) : Prop :=
  forall w, exists added,
    trace (world_of (m w)) = trace w ++ added /\ Forall ok added.

(** The effects of an OpenCV session in the window [window_name]. *)
Definition in_window (window_name : string) (e : Effect) : Prop :=
  match e with
  | namedWindow t => t = window_name
  | imshow t _ => t = window_name
  | setMouseCallback t => t = window_name
  | destroyAllWindows => True
  | _ => False
  end.

(** The effects of a sampling call: a figure of [shown] under [title_],
    or the notice that nothing was selected. *)
Definition figure_or_notice (shown : image) (title_ : string) (e : Effect)
  : Prop :=
  e = figure shown title_ \/ e = print "No region selected.".

(** Nothing is created, and files are written only inside [dir]. *)
Definition output_under (dir : string) (e : Effect) : Prop :=
  match e with
  | to_csv path _ _ => String.prefix (dir +:+ "/") path = true
  | makedirs _ => False
  | _ => True
  end.

(** As [output_under], and [dir] itself may be created. *)
Definition output_of_folder (dir : string) (e : Effect) : Prop :=
  match e with
  | to_csv path _ _ => String.prefix (dir +:+ "/") path = true
  | makedirs path => path = dir
  | _ => True
  end.

(** A host whose folder "scans" holds no stack. *)
Definition bare_host : Host :=
  {| equalizeHist := fun a => a;
     circle := dot;
     line := fun a p q => dot (dot a p) q;
     array_str := fun _ => "[[...]]"%string;
     imread := fun _ => None;
     path_exists := fun path => String.eqb path "scans";
     listdir := fun path =>
       if String.eqb path "scans"
       then Some ["notes.txt"; "embryo.tiff"; "tif"]%string else None;
     can_makedirs := fun _ => true;
     writable := fun _ => true;
     now := "20240506120000"%string |}.

(** An operator who clicks two contour points and one spline point, and in
    each of six sampling windows drags the selection two pixels down
    before confirming it. *)
Definition dragging_down : World :=
  {| heap := ∅;
     waitKey_input :=
       [ {| mouse := [left_click 1 1; left_click 2 2]; key_code := 113 |};
         {| mouse := [left_click 0 3]; key_code := 113 |} ];
     show_input :=
       replicate 6
         [button_press (Some "C"%string) {| xdata := 1; ydata := 1 |};
          motion_notify {| xdata := 1; ydata := 3 |};
          button_release true];
     trace := [] |}.

(** A host whose folder "scans" holds the one stack "a.b.tif". *)
Definition dotted_host : Host :=
  {| equalizeHist := fun a => a;
     circle := dot;
     line := fun a p q => dot (dot a p) q;
     array_str := fun _ => "[[...]]"%string;
     imread := fun path =>
       if String.eqb path "scans/a.b.tif" then Some small_stack else None;
     path_exists := fun path => String.eqb path "scans";
     listdir := fun path =>
       if String.eqb path "scans"
       then Some ["notes.txt"; "a.b.tif"]%string else None;
     can_makedirs := fun _ => true;
     writable := fun _ => true;
     now := "20240506120000"%string |}.

(** The names [label_folder] passes to [label], in this order, for the
    directory listing [names]. *)
Definition stack_names (names : list string) : list string :=
  map (Py.split_first ".")
    (filter (fun name => Is_true (Py.endswith name ".tif")) names).

(** Whether the character [c] occurs in [s]. *)
Fixpoint contains (c : ascii) (s : string) : bool :=
  match s with
  | EmptyString => false
  | String c' s' => Ascii.eqb c' c || contains c s'
  end.

(** ** scripts/shapes_annotater.py: cycling through the labels *)

Module shapes_annotater.

(** What the key and mouse bindings read and write of the shapes layer:
    [current_properties['label'][0]], [mode] and [selected_data]. *)
Record ShapesLayer := {
  current_label : string;
  mode : string;
  selected_data : gset nat
}.

(** How a binding ends: normally, or with an exception, in either case
    with the layer as the binding has left it. *)
Inductive Result :=
| Done (layer : ShapesLayer)
| Failed (e : exn) (layer : ShapesLayer).

Definition set_label (new_label : string) (layer : ShapesLayer) : ShapesLayer :=
  {| current_label := new_label;
     mode := mode layer;
     selected_data := selected_data layer |}.

(** [list(labels).index(x)]: the first position of [x]; [None] stands for
    ValueError. *)
Fixpoint index_of (x : string) (labels : list string) : option nat :=
  match labels with
  | [] => None
  | y :: labels' =>
      if String.eqb y x then Some O else S <$> index_of x labels'
  end.

(** [next_label(event=None)] *)
Definition next_label (labels : list string) (shapes_layer : ShapesLayer)
  : Result :=
  let current_label := current_label shapes_layer in
  match index_of current_label labels with
  | None => Failed ValueError shapes_layer
  | Some ind =>
      let new_ind := (Z.of_nat ind + 1) mod Z.of_nat (length labels) in
      match Py.index labels new_ind with
      | None => Failed IndexError shapes_layer
      | Some new_label => Done (set_label new_label shapes_layer)
      end
  end.

(** [prev_label(event)] *)
Definition prev_label (labels : list string) (shapes_layer : ShapesLayer)
  : Result :=
  let current_label := current_label shapes_layer in
  match index_of current_label labels with
  | None => Failed ValueError shapes_layer
  | Some ind =>
      let n_labels := Z.of_nat (length labels) in
      let new_ind := ((Z.of_nat ind - 1) + n_labels) mod n_labels in
      match Py.index labels new_ind with
      | None => Failed IndexError shapes_layer
      | Some new_label => Done (set_label new_label shapes_layer)
      end
  end.

(** [next_on_click(layer, event)] *)
Definition next_on_click (labels : list string) (layer : ShapesLayer)
  : Result :=
  if String.eqb (mode layer) "add" then
    let layer := {| current_label := current_label layer;
                    mode := mode layer;
                    selected_data := ∅ |} in
    next_label labels layer
  else Done layer.

(** [k] mouse clicks on the layer, one after the other. *)
Fixpoint repeat_click (k : nat) (labels : list string) (layer : ShapesLayer)
  : Result :=
  match k with
  | O => Done layer
  | S k' =>
      match next_on_click labels layer with
      | Done layer' => repeat_click k' labels layer'
      | Failed e layer' => Failed e layer'
      end
  end.

End shapes_annotater.

(** ** tests/test_labelling.py *)

Module test_labelling.

Definition dropbox_root : string :=
  "/Users/huanga/The Francis Crick Dropbox/VincentJ/Anqi/Intership/AI_segmentation/python_segmentation/".

Definition filename : string :=
  "TdEmbryo_Hoechst_pMad488_dpp546_brk647_20240506_LimbExtension10-Ant".

Section tests.

Context `{Host}.

(** [stack = np.array(imread(...)); layer = 26; img = stack[layer, :, :, 3]],
    the image being an array object of its own. *)
Definition load_img : M positive :=
  let path := dropbox_root +:+ filename +:+ ".tif" in
  let! stack_ := or_raise (OSError path) (imread path) in
  let layer := 26 in
  let! plane := or_raise IndexError (Py.index stack_ layer) in
  (if (3 <? np.channels stack_)%nat then ret tt else raise IndexError) ;;;
  alloc (np.channel plane 3).

(** [test_get_spline()] *)
Definition test_get_spline : M unit :=
  let! img := load_img in
  get_spline img filename None ;;;
  ret tt.

(** [test_get_contour()] *)
Definition test_get_contour : M unit :=
  let! img := load_img in
  get_contour img filename ;;;
  ret tt.

End tests.

End test_labelling.

(** * Properties *)

(** ** The constrained selector *)

Lemma init_ok (size : Q) :
  selector_ok size (FixedSizeRectangleSelector.__init__ size).
Proof.
  repeat split; simpl; try ring.
  - intros [? [=]].
  - discriminate.
  - discriminate.
Qed.

Lemma press_ok (size : Q) handle event s :
  selector_ok size s -> selector_ok size (press handle event s).
Proof.
  intros [Hext _]. split; [exact Hext|]. split; simpl.
  - eauto.
  - intros e [= <-]. exact Hext.
Qed.

Lemma release_ok (size : Q) s :
  selector_ok size s -> selector_ok size (release s).
Proof.
  intros [Hext _]. split; [exact Hext|]. split; simpl.
  - intros [? [=]].
  - discriminate.
Qed.

Lemma set_initial_extents_ok (size : Q) s :
  selector_ok size s -> selector_ok size (set_extents (0, size, 0, size)%Q s).
Proof.
  intros (_ & Hsnap & Hpress). split; [|split]; simpl; auto.
  split; ring.
Qed.

Lemma shifted_width dx dy e : (width (shifted dx dy e) == width e)%Q.
Proof. destruct e as [[[x0 x1] y0] y1]. simpl. ring. Qed.

Lemma shifted_height dx dy e : (height (shifted dx dy e) == height e)%Q.
Proof. destruct e as [[[x0 x1] y0] y1]. simpl. ring. Qed.

(** What [_onmove] computes once a drag is in progress. *)
Lemma onmove_spec self event p e :
  _eventpress self = Some p ->
  _extents_on_press self = Some e ->
  FixedSizeRectangleSelector._onmove self event =
    inr (set_extents
           (if bool_decide (_active_handle self = Some "C"%string)
            then shifted (xdata event - xdata p) (ydata event - ydata p) e
            else e) self).
Proof.
  intros Hp He. unfold FixedSizeRectangleSelector._onmove.
  rewrite Hp, He. destruct e as [[[x0 x1] y0] y1].
  destruct (bool_decide _); reflexivity.
Qed.

Lemma onmove_ok (size : Q) self event :
  selector_ok size self -> is_Some (_eventpress self) ->
  exists self', FixedSizeRectangleSelector._onmove self event = inr self'
                /\ selector_ok size self'.
Proof.
  intros (Hext & Hsnap & Hpress) Hev.
  destruct (Hsnap Hev) as [e He]. destruct Hev as [p Hp].
  rewrite (onmove_spec self event p e Hp He). eexists. split; [reflexivity|].
  split; [|split]; simpl; auto.
  destruct (Hpress e He) as [Hw Hh].
  destruct (bool_decide _); [|by split].
  by rewrite shifted_width, shifted_height.
Qed.

Lemma dispatch_ok image_ name size ev st :
  selector_ok size (selector st) ->
  exists st', dispatch image_ name size ev st = inr st'
              /\ selector_ok size (selector st').
Proof.
  intros Hok. destruct ev as [handle event|event|completed|key]; simpl.
  - eexists. split; [reflexivity|]. simpl. by apply press_ok.
  - destruct (_eventpress (selector st)) as [p|] eqn:Hp; [|eauto].
    destruct (onmove_ok size (selector st) event Hok) as (s' & Hs' & Hok').
    { rewrite Hp. eauto. }
    rewrite Hs'. eauto.
  - destruct (_eventpress (selector st)) as [p|] eqn:Hp; [|eauto].
    eexists. split; [reflexivity|]. simpl. apply release_ok.
    destruct completed; [|done].
    unfold onselect. by destruct (extents (selector st)) as [[[? ?] ?] ?].
  - unfold reset. destruct (String.eqb key "r"); [|eauto].
    eexists. split; [reflexivity|]. simpl. by apply set_initial_extents_ok.
Qed.

Lemma show_ok image_ name size events : forall st,
  selector_ok size (selector st) ->
  exists st', show image_ name size events st = inr st'
              /\ selector_ok size (selector st').
Proof.
  induction events as [|ev events IH]; intros st Hok; simpl.
  - eauto.
  - destruct (dispatch_ok image_ name size ev st Hok) as (st1 & -> & Hok1).
    by apply IH.
Qed.




(** ** The region sampler *)

Lemma int_inject_Z (z : Z) : Py.int (inject_Z z) = z.
Proof. unfold Py.int. simpl. apply Z.quot_1_r. Qed.

Lemma slice_Forall {A} (P : A -> Prop) (l : list A) start stop :
  Forall P l -> Forall P (Py.slice l start stop).
Proof. intros Hl. unfold Py.slice. by apply Forall_take, Forall_drop. Qed.

Lemma crop_constant v a y1 y2 x1 x2 :
  constant v a -> constant v (np.crop a y1 y2 x1 x2).
Proof.
  unfold constant, np.crop. intros Ha.
  apply Forall_fmap. eapply Forall_impl; [by apply slice_Forall|].
  intros row Hrow. simpl. by apply slice_Forall.
Qed.

Lemma sum_constant v (l : list Z) :
  Forall (eq v) l -> fold_right Z.add 0 l = v * Z.of_nat (length l).
Proof.
  induction 1 as [|x l <- _ IH]; simpl length; simpl fold_right; [lia|].
  rewrite IH. lia.
Qed.

Lemma total_constant v a :
  constant v a -> np.total a = v * Z.of_nat (np.count a).
Proof.
  intros Ha. unfold np.total, np.count. apply sum_constant.
  apply Forall_concat. exact Ha.
Qed.

(** The mean of a constant array with at least one element is the
    constant. *)
Lemma mean_constant v a :
  constant v a -> np.count a <> O ->
  exists q, np.mean a = Py.Fin q /\ (q == inject_Z v)%Q.
Proof.
  intros Ha Hn. unfold np.mean.
  destruct (np.count a) as [|n] eqn:Hc; [done|].
  eexists. split; [reflexivity|].
  rewrite (total_constant v a Ha), Hc, inject_Z_mult.
  field. intros Hz.
  assert (Z.of_nat (S n) = 0) as Hz'.
  { apply (inject_Z_injective _ 0). exact Hz. }
  lia.
Qed.

(** C4, as the code has it.  [onselect] reads the selector's extent,
    truncates its four bounds to integers, appends the mean of
    [image[y1:y2, x1:x2]] to [means] and appends to [centers] the midpoint
    of the truncated bounds on each axis; the selector is not touched.
    When the image is constant and the cropped block has at least one
    element the appended mean is that constant, and when the bounds of the
    extent are whole numbers the appended center is the midpoint of the
    extent itself. *)
Theorem onselect_records (image_ : image) (st : Session) (e1 e2 e3 e4 : Q) :
  extents (selector st) = (e1, e2, e3, e4) ->
  let x1 := Py.int e1 in
  let x2 := Py.int e2 in
  let y1 := Py.int e3 in
  let y2 := Py.int e4 in
  let region := np.crop image_ y1 y2 x1 x2 in
  exists ctr,
    means (onselect image_ st) = means st ++ [np.mean region] /\
    centers (onselect image_ st) = centers st ++ [ctr] /\
    selector (onselect image_ st) = selector st /\
    (fst ctr == midpoint (inject_Z x1) (inject_Z x2))%Q /\
    (snd ctr == midpoint (inject_Z y1) (inject_Z y2))%Q /\
    (forall v, constant v image_ -> np.count region <> O ->
       exists q, np.mean region = Py.Fin q /\ (q == inject_Z v)%Q) /\
    (forall a b c d, (e1, e2, e3, e4) = pixel_extent a b c d ->
       (fst ctr == midpoint e1 e2)%Q /\ (snd ctr == midpoint e3 e4)%Q) /\
    (forall name size, is_Some (_eventpress (selector st)) ->
       exists st',
         dispatch image_ name size (button_release true) st = inr st' /\
         means st' = means (onselect image_ st) /\
         centers st' = centers (onselect image_ st) /\
         extents (selector st') = extents (selector st)).
Proof.
  intros He x1 x2 y1 y2 region.
  exists (inject_Z (x1 + x2) / 2, inject_Z (y1 + y2) / 2)%Q.
  unfold onselect. rewrite He. simpl.
  assert (forall a b, inject_Z (a + b) / 2 == midpoint (inject_Z a) (inject_Z b))%Q
    as Hmid.
  { intros a b. unfold midpoint. by rewrite inject_Z_plus. }
  split; [done|]. split; [done|]. split; [done|].
  split; [apply Hmid|]. split; [apply Hmid|]. split; [|split].
  - intros v Hv Hn. apply mean_constant; [|done]. by apply crop_constant.
  - intros a b c d [= -> -> -> ->]. subst x1 x2 y1 y2.
    rewrite !int_inject_Z. split; apply Hmid.
  - intros name size [p Hp]. simpl. rewrite Hp. eexists. split; [reflexivity|].
    unfold onselect. rewrite He. by simpl.
Qed.

Lemma onselect_records_witness :
  exists ctr,
    means (onselect (flat_image 30 30 42)
             {| selector := set_extents (pixel_extent 10 20 5 15)
                              (FixedSizeRectangleSelector.__init__ 10);
                means := []; centers := []; title := "brk"%string |})
      = [np.mean (np.crop (flat_image 30 30 42) 5 15 10 20)] /\
    (fst ctr == 15)%Q /\ (snd ctr == 10)%Q /\
    exists q, np.mean (np.crop (flat_image 30 30 42) 5 15 10 20) = Py.Fin q
              /\ (q == 42)%Q.
Proof.
  destruct (onselect_records (flat_image 30 30 42)
              {| selector := set_extents (pixel_extent 10 20 5 15)
                               (FixedSizeRectangleSelector.__init__ 10);
                 means := []; centers := []; title := "brk"%string |}
              (inject_Z 10) (inject_Z 20) (inject_Z 5) (inject_Z 15) eq_refl)
    as (ctr & Hm & _ & _ & Hx & Hy & Hconst & _ & _).
  exists ctr. split; [exact Hm|]. split; [|split].
  - rewrite Hx. reflexivity.
  - rewrite Hy. reflexivity.
  - apply (Hconst 42).
    + unfold constant, flat_image.
      apply Forall_replicate, Forall_replicate. reflexivity.
    + vm_compute. discriminate.
Defined.

(** C4 as stated fails.  Dragging the 50 by 50 selector by half a pixel and
    releasing records the center [(25, 25)], while the extent is
    [(1/2, 101/2, 1/2, 101/2)] with midpoint [(51/2, 51/2)]; and dragging
    it off a constant image records [nan], not the constant. *)
Lemma onselect_center_counterexample :
  (exists st e1 e2 e3 e4 ctr,
     show (flat_image 100 100 42) "brk" 50
       [button_press (Some "C"%string) {| xdata := 25; ydata := 25 |};
        motion_notify {| xdata := 51 # 2; ydata := 51 # 2 |};
        button_release true]
       (open_session "brk" 50) = inr st /\
     extents (selector st) = (e1, e2, e3, e4) /\
     centers st = [ctr] /\
     ~ (fst ctr == midpoint e1 e2)%Q /\
     ~ (snd ctr == midpoint e3 e4)%Q) /\
  (exists st,
     show (flat_image 100 100 42) "brk" 50
       [button_press (Some "C"%string) {| xdata := 25; ydata := 25 |};
        motion_notify {| xdata := 225; ydata := 25 |};
        button_release true]
       (open_session "brk" 50) = inr st /\
     constant 42 (flat_image 100 100 42) /\
     means st = [Py.NaN]).
Proof.
  split.
  - eexists _, _, _, _, _, _. split; [vm_compute; reflexivity|].
    split; [reflexivity|]. split; [reflexivity|].
    split; vm_compute; discriminate.
  - eexists. split; [vm_compute; reflexivity|]. split; [|reflexivity].
    apply Forall_replicate, Forall_replicate. reflexivity.
Qed.

(** C5, evaluated on the code.  The key "r" empties [means] and puts the
    extent back to [(0, size, 0, size)], but leaves [centers] as it was:
    after one confirmed selection and a reset the session holds no mean and
    still one center.  A reset of a session without samples leaves both
    lists empty. *)
Theorem reset_keeps_centers (image_ : image) (name : string) (size : Q) :
  (forall st,
     means (reset name size "r" st) = [] /\
     extents (selector (reset name size "r" st)) = (0, size, 0, size)%Q /\
     centers (reset name size "r" st) = centers st) /\
  (exists st,
     show image_ name size
       [button_press (Some "C"%string) {| xdata := 25; ydata := 25 |};
        button_release true;
        key_press "r"]
       (open_session name size) = inr st /\
     means st = [] /\
     extents (selector st) = (0, size, 0, size)%Q /\
     length (centers st) = 1%nat) /\
  (exists st,
     show image_ name size [key_press "r"] (open_session name size) = inr st /\
     means st = [] /\ centers st = [] /\
     extents (selector st) = (0, size, 0, size)%Q).
Proof.
  split; [|split].
  - intros st. by unfold reset.
  - eexists. split; [reflexivity|]. by simpl.
  - eexists. split; [reflexivity|]. by simpl.
Qed.

(** ** Returning the last sample, or asking again *)

Lemma onselect_lists_ok image_ st : lists_ok st -> lists_ok (onselect image_ st).
Proof.
  unfold lists_ok, onselect.
  destruct (extents (selector st)) as [[[e1 e2] e3] e4]. simpl.
  rewrite !length_app. simpl. lia.
Qed.

Lemma dispatch_lists_ok image_ name size ev st st' :
  dispatch image_ name size ev st = inr st' -> lists_ok st -> lists_ok st'.
Proof.
  destruct ev as [handle event|event|completed|key]; simpl.
  - by intros [= <-].
  - destruct (_eventpress (selector st)); [|by intros [= <-]].
    destruct (FixedSizeRectangleSelector._onmove _ _); [done|].
    by intros [= <-].
  - destruct (_eventpress (selector st)); [|by intros [= <-]].
    intros [= <-] Hok. unfold lists_ok. simpl.
    destruct completed; [by apply onselect_lists_ok|done].
  - unfold reset. destruct (String.eqb key "r"); intros [= <-]; [|done].
    unfold lists_ok. simpl. lia.
Qed.

Lemma show_lists_ok image_ name size events : forall st st',
  show image_ name size events st = inr st' -> lists_ok st -> lists_ok st'.
Proof.
  induction events as [|ev events IH]; simpl; intros st st'.
  - by intros [= <-].
  - destruct (dispatch image_ name size ev st) as [e|st1] eqn:Hd; [done|].
    intros Hs Hok. eapply IH; [exact Hs|].
    by eapply dispatch_lists_ok.
Qed.

Lemma last_zip {A B} (l : list A) : forall (k : list B),
  length l = length k ->
  last (zip l k) =
    match last l, last k with
    | Some a, Some b => Some (a, b)
    | _, _ => None
    end.
Proof.
  induction l as [|a l IH]; intros [|b k] Hlen; try done.
  injection Hlen as Hlen.
  destruct l as [|a' l], k as [|b' k]; try done.
  change (last (zip (a' :: l) (b' :: k)) =
          match last (a' :: l), last (b' :: k) with
          | Some x, Some y => Some (x, y)
          | _, _ => None
          end).
  by apply IH.
Qed.

Lemma last_drop {A} (l : list A) (n : nat) :
  (n < length l)%nat -> last (drop n l) = last l.
Proof.
  revert n. induction l as [|a l IH]; intros [|n]; simpl; try done; try lia.
  intros Hn. rewrite IH by lia.
  destruct l; [simpl in Hn; lia|done].
Qed.

(** With [lists_ok], the last recorded sample is the last mean paired with
    the last center. *)
Lemma last_recorded st :
  lists_ok st ->
  last (recorded st) =
    match last (means st), last (centers st) with
    | Some m, Some ctr => Some (m, ctr)
    | _, _ => None
    end.
Proof.
  unfold lists_ok, recorded. intros Hok.
  rewrite last_zip by (rewrite length_drop; lia).
  destruct (means st) as [|m ms] eqn:Hm; [done|].
  rewrite last_drop; [done|]. simpl in *. lia.
Qed.

Lemma recorded_length st :
  lists_ok st -> length (recorded st) = length (means st).
Proof.
  unfold lists_ok, recorded. intros Hok.
  rewrite length_zip_with, length_drop. lia.
Qed.

(** A confirmed selection records one more sample; a reset records none. *)
Lemma recorded_onselect image_ st :
  lists_ok st ->
  exists sample, recorded (onselect image_ st) = recorded st ++ [sample].
Proof.
  unfold lists_ok, recorded, onselect. intros Hok.
  destruct (extents (selector st)) as [[[e1 e2] e3] e4]. simpl.
  eexists (_, _).
  rewrite !length_app. simpl.
  replace (length (centers st) + 1 - (length (means st) + 1))%nat
    with (length (centers st) - length (means st))%nat by lia.
  rewrite drop_app_le by lia.
  rewrite zip_with_app by (rewrite length_drop; lia).
  reflexivity.
Qed.

Lemma recorded_reset name size st : recorded (reset name size "r" st) = [].
Proof. reflexivity. Qed.

Lemma displayed_again c : displayed (again c) = displayed c.
Proof. reflexivity. Qed.

Lemma again_again c : again (again c) = again c.
Proof. reflexivity. Qed.

Lemma after_show_again c events : after_show (again c) events = after_show c events.
Proof. reflexivity. Qed.

(** The outcome of one window in terms of the samples it holds when it is
    closed. *)
Lemma after_show_spec (c : Call) (events : list GuiEvent) :
  exists st,
    show (arg_image c) (arg_name c) (arg_size c) events
      (open_session (arg_name c) (arg_size c)) = inr st /\
    length (recorded st) = length (means st) /\
    after_show c events =
      inr (match last (recorded st) with
           | Some sample => inl sample
           | None => inr (again c)
           end).
Proof.
  destruct (show_ok (arg_image c) (arg_name c) (arg_size c) events
              (open_session (arg_name c) (arg_size c))) as (st & Hst & _).
  { apply init_ok. }
  assert (lists_ok st) as Hok.
  { eapply show_lists_ok; [exact Hst|]. unfold lists_ok. simpl. lia. }
  exists st. split; [exact Hst|]. split; [by apply recorded_length|].
  unfold after_show. rewrite Hst.
  rewrite last_recorded by done.
  by destruct (last (means st)), (last (centers st)).
Qed.

(** Any number of windows closed without a sample are followed by a fresh
    window each; the first window closed with a sample ends the call. *)
Lemma get_mean_region_rec_retries c events sample rest :
  after_show c events = inr (inl sample) ->
  forall idle c0 w,
    Forall (fun evs => after_show c evs = inr (inr (again c))) idle ->
    c0 = c \/ c0 = again c ->
    get_mean_region_rec (idle ++ events :: rest) c0 w =
      Return sample
        {| heap := heap w;
           waitKey_input := waitKey_input w;
           show_input := rest;
           trace := trace w ++ retry_trace c (length idle)
                      ++ [figure (displayed c) (arg_name c)] |}.
Proof.
  intros Hlast idle.
  induction idle as [|evs idle IH]; intros c0 w Hidle Hc0.
  - simpl app. cbn [get_mean_region_rec].
    assert (after_show c0 events = inr (inl sample)) as ->.
    { destruct Hc0 as [-> | ->]; [done|by rewrite after_show_again]. }
    simpl. by destruct Hc0 as [-> | ->].
  - apply Forall_cons in Hidle as [Hevs Hidle].
    simpl app. cbn [get_mean_region_rec].
    assert (after_show c0 evs = inr (inr (again c))) as ->.
    { destruct Hc0 as [-> | ->]; [done|by rewrite after_show_again]. }
    rewrite (IH (again c) _ Hidle) by (by right).
    unfold retry_trace, emit, set_show_input. simpl.
    do 2 f_equal.
    destruct Hc0 as [-> | ->]; simpl; by rewrite <- !app_assoc.
Qed.

(** C3.  One window: the event loop goes through, and when the window is
    closed the call returns the last recorded [(mean, center)] if the
    session holds a sample, and otherwise calls itself with the same image,
    the same displayed image, the same name, size and vmax (literally the
    same arguments when [high_contrast] was given).  The whole call: after
    any number of windows closed without a sample, the first window closed
    with one makes the call return that sample; each of those windows
    showed the same image under the same title. *)
Theorem get_mean_region_last_or_retry (c : Call) (events : list GuiEvent) :
  (exists st,
     show (arg_image c) (arg_name c) (arg_size c) events
       (open_session (arg_name c) (arg_size c)) = inr st /\
     length (recorded st) = length (means st) /\
     (forall sample, last (recorded st) = Some sample ->
        after_show c events = inr (inl sample)) /\
     (recorded st = [] -> after_show c events = inr (inr (again c)))) /\
  (arg_image (again c) = arg_image c /\
   displayed (again c) = displayed c /\
   arg_name (again c) = arg_name c /\
   arg_size (again c) = arg_size c /\
   arg_vmax (again c) = arg_vmax c /\
   (is_Some (arg_high_contrast c) -> again c = c)) /\
  (forall idle rest sample w,
     Forall (fun evs => after_show c evs = inr (inr (again c))) idle ->
     after_show c events = inr (inl sample) ->
     get_mean_region (arg_image c) (arg_high_contrast c) (arg_name c)
       (arg_size c) (arg_vmax c)
       (set_show_input (idle ++ events :: rest) w) =
     Return sample
       {| heap := heap w;
          waitKey_input := waitKey_input w;
          show_input := rest;
          trace := trace w ++ retry_trace c (length idle)
                     ++ [figure (displayed c) (arg_name c)] |}).
Proof.
  split; [|split].
  - destruct (after_show_spec c events) as (st & Hst & Hlen & Hafter).
    exists st. split; [exact Hst|]. split; [exact Hlen|]. split.
    + intros sample Hs. by rewrite Hafter, Hs.
    + intros Hm. by rewrite Hafter, Hm.
  - repeat split. intros [hc Hhc]. destruct c. simpl in *. by subst.
  - intros idle rest sample w Hidle Hlast.
    unfold get_mean_region.
    replace {| arg_image := arg_image c;
               arg_high_contrast := arg_high_contrast c;
               arg_name := arg_name c; arg_size := arg_size c;
               arg_vmax := arg_vmax c |} with c by (by destruct c).
    cbn [show_input set_show_input].
    rewrite (get_mean_region_rec_retries c events sample rest Hlast idle c
               _ Hidle) by (by left).
    reflexivity.
Qed.

Lemma get_mean_region_last_or_retry_witness :
  exists sample w',
    get_mean_region (flat_image 60 60 7) None "brk" 50 None
      (set_show_input
         [ []; [key_press "r"];
           [button_press (Some "C"%string) {| xdata := 25; ydata := 25 |};
            button_release true];
           [] ] quiet)
      = Return sample w' /\
    show_input w' = [[]] /\
    length (trace w') = 5%nat.
Proof.
  eexists _, _. split; [|split].
  - apply (proj2 (proj2 (get_mean_region_last_or_retry
                           {| arg_image := flat_image 60 60 7;
                              arg_high_contrast := None;
                              arg_name := "brk";
                              arg_size := 50;
                              arg_vmax := None |}
                           [button_press (Some "C"%string)
                              {| xdata := 25; ydata := 25 |};
                            button_release true]))
             [ []; [key_press "r"] ] [[]] _ quiet).
    + repeat constructor.
    + vm_compute. reflexivity.
  - reflexivity.
  - reflexivity.
Defined.

(** ** Rules for specifications *)

Lemma triple_ret {A} P (a : A) (Q : A -> World -> Prop) E B :
  (forall w, P w -> Q a w) -> triple P (ret a) Q E B.
Proof. intros HQ w Hw. by apply HQ. Qed.

Lemma triple_raise {A} P e (Q : A -> World -> Prop) (E : exn -> World -> Prop) B :
  (forall w, P w -> E e w) -> triple P (raise e) Q E B.
Proof. intros HE w Hw. by apply HE. Qed.

Lemma triple_bind {A C} P (m : M A) (k : A -> M C) Q1 Q E B :
  triple P m Q1 E B ->
  (forall a, triple (Q1 a) (k a) Q E B) ->
  triple P (bind m k) Q E B.
Proof.
  intros Hm Hk w Hw. unfold bind. specialize (Hm w Hw).
  destruct (m w) as [a w'|e w'|w']; [|done..].
  by apply Hk.
Qed.

Lemma triple_pre {A} (P P' : World -> Prop) (m : M A) Q E B :
  (forall w, P w -> P' w) -> triple P' m Q E B -> triple P m Q E B.
Proof. intros HP Hm w Hw. apply Hm, HP, Hw. Qed.

Lemma triple_effect P e (Q : unit -> World -> Prop) E B :
  (forall w, P w -> Q tt (emit e w)) -> triple P (effect e) Q E B.
Proof. intros HQ w Hw. by apply HQ. Qed.

Lemma triple_or_raise {A} P e (o : option A) (Q : A -> World -> Prop)
    (E : exn -> World -> Prop) B :
  (forall w, P w -> match o with Some a => Q a w | None => E e w end) ->
  triple P (or_raise e o) Q E B.
Proof. intros HQ w Hw. specialize (HQ w Hw). by destruct o. Qed.

Lemma triple_read P l (Q : image -> World -> Prop)
    (E : exn -> World -> Prop) B :
  (forall w, P w ->
     match heap w !! l with Some a => Q a w | None => E AttributeError w end) ->
  triple P (read l) Q E B.
Proof.
  intros HQ w Hw. specialize (HQ w Hw). unfold read.
  by destruct (heap w !! l).
Qed.

Lemma triple_alloc P a (Q : positive -> World -> Prop) E B :
  (forall w, P w ->
     Q (fresh (dom (heap w)))
       (set_heap (<[fresh (dom (heap w)) := a]> (heap w)) w)) ->
  triple P (alloc a) Q E B.
Proof. intros HQ w Hw. by apply HQ. Qed.

Lemma triple_draw P l f (Q : unit -> World -> Prop) E B :
  (forall w, P w -> Q tt (set_heap (alter f l (heap w)) w)) ->
  triple P (draw l f) Q E B.
Proof. intros HQ w Hw. by apply HQ. Qed.

(** ** The point collector leaves the arrays of its caller alone *)

Section point_collector_frame.

Context `{Host}.
Variable h0 : gmap positive image.

Lemma fresh_not_kept w : keeps h0 w -> h0 !! fresh (dom (heap w)) = None.
Proof.
  intros Hk. apply not_elem_of_dom. intros Hin.
  apply (is_fresh (dom (heap w))).
  by apply (subseteq_dom h0 (heap w) Hk).
Qed.

Lemma keeps_alloc a w :
  keeps h0 w ->
  keeps h0 (set_heap (<[fresh (dom (heap w)) := a]> (heap w)) w).
Proof.
  intros Hk. unfold keeps. simpl.
  etrans; [exact Hk|]. apply insert_subseteq.
  apply not_elem_of_dom, is_fresh.
Qed.

Lemma keeps_draw buffer f w :
  h0 !! buffer = None -> keeps h0 w ->
  keeps h0 (set_heap (alter f buffer (heap w)) w).
Proof.
  intros Hb Hk. unfold keeps in *. simpl.
  apply map_subseteq_spec. intros l a Hl.
  rewrite lookup_alter_ne by congruence.
  by eapply map_subseteq_spec.
Qed.

Lemma preserving_bind {A C} (m : M A) (k : A -> M C) :
  preserving h0 m -> (forall a, preserving h0 (k a)) -> preserving h0 (bind m k).
Proof. intros Hm Hk. eapply triple_bind; [exact Hm|exact Hk]. Qed.

Lemma preserving_ret {A} (a : A) : preserving h0 (ret a).
Proof. by apply triple_ret. Qed.

Lemma preserving_or_raise {A} e (o : option A) : preserving h0 (or_raise e o).
Proof. apply triple_or_raise. intros w Hw. by destruct o. Qed.

Lemma preserving_read l : preserving h0 (read l).
Proof. apply triple_read. intros w Hw. by destruct (heap w !! l). Qed.

Lemma preserving_effect e : preserving h0 (effect e).
Proof. by apply triple_effect. Qed.

Lemma preserving_draw buffer f : h0 !! buffer = None -> preserving h0 (draw buffer f).
Proof. intros Hb. apply triple_draw. intros w. by apply keeps_draw. Qed.

(** The array made by [alloc] is none of the caller's. *)
Lemma preserving_alloc_bind {C} a (k : positive -> M C) :
  (forall l, h0 !! l = None -> preserving h0 (k l)) ->
  preserving h0 (bind (alloc a) k).
Proof.
  intros Hk.
  apply triple_bind with (Q1 := fun l w => h0 !! l = None /\ keeps h0 w).
  - apply triple_alloc. intros w Hw. split.
    + by apply fresh_not_kept.
    + by apply keeps_alloc.
  - intros l w [Hl Hw]. by apply Hk.
Qed.

Lemma mouse_callback_preserving window_name buffer ev roi_points :
  h0 !! buffer = None ->
  preserving h0 (mouse_callback window_name buffer ev roi_points).
Proof.
  intros Hb. unfold mouse_callback.
  destruct (cv_event ev =? EVENT_LBUTTONDOWN); [|apply preserving_ret].
  apply preserving_bind; [by apply preserving_draw|intros _].
  apply preserving_bind.
  { destruct (1 <? _)%nat; [|apply preserving_ret].
    apply preserving_bind; [apply preserving_or_raise|intros p].
    apply preserving_bind; [apply preserving_or_raise|intros q].
    by apply preserving_draw. }
  intros _. apply preserving_bind; [apply preserving_read|intros shown].
  apply preserving_bind; [apply preserving_effect|intros _].
  apply preserving_ret.
Qed.

Lemma deliver_preserving window_name buffer evs : forall roi_points,
  h0 !! buffer = None ->
  preserving h0 (deliver window_name buffer evs roi_points).
Proof.
  induction evs as [|ev evs IH]; intros roi_points Hb; simpl.
  - apply preserving_ret.
  - apply preserving_bind; [by apply mouse_callback_preserving|].
    intros roi_points'. by apply IH.
Qed.

Lemma waitKey_loop_preserving polls window_name buffer : forall roi_points,
  h0 !! buffer = None ->
  preserving h0 (waitKey_loop polls window_name buffer roi_points).
Proof.
  induction polls as [|p polls IH]; intros roi_points Hb w Hw; simpl.
  - exact Hw.
  - pose proof (deliver_preserving window_name buffer (mouse p) roi_points
                  Hb (set_waitKey_input polls w) Hw) as Hd.
    destruct (deliver _ _ _ _ _) as [roi' w'|e w'|w']; [|done..].
    destruct (_ =? ord_q); [done|]. by apply IH.
Qed.

Lemma get_spline_preserving image_ name window_name :
  preserving h0 (get_spline image_ name window_name).
Proof.
  unfold get_spline.
  apply preserving_bind; [apply preserving_read|intros pixels].
  apply preserving_alloc_bind. intros image_with_roi _.
  apply preserving_bind; [apply preserving_read|intros copied].
  apply preserving_alloc_bind. intros img8bit _.
  apply preserving_bind; [apply preserving_read|intros narrowed].
  apply preserving_alloc_bind. intros buffer Hb.
  apply preserving_bind; [apply preserving_effect|intros _].
  apply preserving_bind; [apply preserving_read|intros shown].
  apply preserving_bind; [apply preserving_effect|intros _].
  apply preserving_bind; [apply preserving_effect|intros _].
  apply preserving_bind.
  { intros w Hw. by apply waitKey_loop_preserving. }
  intros roi_points.
  apply preserving_bind; [apply preserving_effect|intros _].
  apply preserving_ret.
Qed.

End point_collector_frame.

(** C10.  However a call of [get_spline] ends (returning, raising, or
    still waiting for the quit key), every array that existed before the
    call is there afterwards with the pixels it had; in particular the
    array passed as [image] is unchanged.  Markers and lines go to an array
    that [get_spline] has made itself. *)
Theorem get_spline_keeps_image `{Host} (image_ : positive) (name : string)
    (window_name : option string) (w : World) :
  heap w ⊆ heap (world_of (get_spline image_ name window_name w)) /\
  heap (world_of (get_spline image_ name window_name w)) !! image_
    = heap w !! image_.
Proof.
  pose proof (get_spline_preserving (heap w) image_ name window_name w) as Hk.
  assert (keeps (heap w) (world_of (get_spline image_ name window_name w)))
    as Hsub.
  { specialize (Hk (reflexivity _)).
    by destruct (get_spline image_ name window_name w). }
  split; [exact Hsub|].
  destruct (heap w !! image_) as [pixels|] eqn:Himg.
  - eapply map_subseteq_spec; [exact Hsub|exact Himg].
  - unfold get_spline, bind, read. by rewrite Himg.
Qed.

(** ** The point collector returns the clicks in order *)

Lemma index_is_Some {A} (l : list A) (i : Z) :
  - Z.of_nat (length l) <= i < Z.of_nat (length l) -> is_Some (Py.index l i).
Proof.
  intros Hi. unfold Py.index.
  destruct (i <? - Z.of_nat (length l)) eqn:Hlo; [lia|].
  destruct (Z.of_nat (length l) <=? i) eqn:Hhi; [lia|]. simpl.
  apply lookup_lt_is_Some. destruct (i <? 0) eqn:Hneg; lia.
Qed.

Lemma clicks_app evs1 evs2 : clicks (evs1 ++ evs2) = clicks evs1 ++ clicks evs2.
Proof. unfold clicks. by rewrite List.filter_app, map_app. Qed.

(** Left clicks are all kept, in their order, repeated or not. *)
Lemma clicks_left_clicks (points : list (Z * Z)) :
  clicks (map (fun p => left_click (fst p) (snd p)) points) = points.
Proof.
  induction points as [|[x y] points IH]; [done|].
  unfold clicks in *. simpl. by rewrite IH.
Qed.

Section point_collector_result.

Context `{Host}.

Lemma drawing_on_draw buffer polls f l w :
  drawing_on buffer polls w ->
  drawing_on buffer polls (set_heap (alter f l (heap w)) w).
Proof.
  intros [[a Ha] Hp]. split; [|done]. simpl.
  destruct (decide (l = buffer)) as [->|Hne].
  - rewrite lookup_alter_eq, Ha. by eexists.
  - rewrite lookup_alter_ne by done. by eexists.
Qed.

Lemma mouse_callback_returning window_name buffer polls ev roi_points :
  returning (drawing_on buffer polls)
    (mouse_callback window_name buffer ev roi_points)
    (fun r w => r = roi_points ++ clicks [ev] /\ drawing_on buffer polls w).
Proof.
  unfold returning, mouse_callback, clicks, is_click. simpl.
  destruct (cv_event ev =? EVENT_LBUTTONDOWN); simpl;
    [|apply triple_ret; intros w Hw; by rewrite app_nil_r].
  apply triple_bind with (Q1 := fun _ => drawing_on buffer polls).
  { apply triple_draw. intros w. apply drawing_on_draw. }
  intros _.
  apply triple_bind with (Q1 := fun _ => drawing_on buffer polls).
  { destruct (1 <? _)%nat eqn:Hlen; [|by apply triple_ret].
    apply Nat.ltb_lt in Hlen.
    apply triple_bind with (Q1 := fun _ => drawing_on buffer polls).
    { apply triple_or_raise. intros w Hw.
      destruct (index_is_Some (roi_points ++ [(cv_x ev, cv_y ev)]) (-2))
        as [p ->]; [lia|done]. }
    intros p.
    apply triple_bind with (Q1 := fun _ => drawing_on buffer polls).
    { apply triple_or_raise. intros w Hw.
      destruct (index_is_Some (roi_points ++ [(cv_x ev, cv_y ev)]) (-1))
        as [q ->]; [lia|done]. }
    intros q. apply triple_draw. intros w. apply drawing_on_draw. }
  intros _.
  apply triple_bind with (Q1 := fun _ => drawing_on buffer polls).
  { apply triple_read. intros w Hw. pose proof Hw as [[a Ha] _]. by rewrite Ha. }
  intros shown.
  apply triple_bind with (Q1 := fun _ => drawing_on buffer polls).
  { by apply triple_effect. }
  intros _. by apply triple_ret.
Qed.

Lemma deliver_returning window_name buffer polls evs : forall roi_points,
  returning (drawing_on buffer polls)
    (deliver window_name buffer evs roi_points)
    (fun r w => r = roi_points ++ clicks evs /\ drawing_on buffer polls w).
Proof.
  induction evs as [|ev evs IH]; intros roi_points; simpl.
  - apply triple_ret. intros w Hw. by rewrite app_nil_r.
  - eapply triple_bind; [apply mouse_callback_returning|].
    intros r w [-> Hw]. specialize (IH (roi_points ++ clicks [ev]) w Hw).
    destruct (deliver _ _ _ _ _) as [r' w'|e w'|w']; [|done..].
    destruct IH as [-> Hw']. split; [|done].
    change (ev :: evs) with ([ev] ++ evs).
    by rewrite clicks_app, app_assoc.
Qed.

(** The loop breaks on the first poll that sees the quit key, having
    delivered the mouse events of all polls up to and including it. *)
Lemma waitKey_loop_returning window_name buffer p after before :
  quits p = true ->
  Forall (fun q => quits q = false) before ->
  forall roi_points w,
    is_Some (heap w !! buffer) ->
    exists w',
      waitKey_loop (before ++ p :: after) window_name buffer roi_points w
        = Return (roi_points ++ clicks (concat (map mouse before) ++ mouse p)) w'
      /\ drawing_on buffer after w'.
Proof.
  intros Hp. induction 1 as [|q before Hq _ IH]; intros roi_points w Hbuf.
  - simpl app. cbn [waitKey_loop].
    pose proof (deliver_returning window_name buffer after (mouse p)
                  roi_points (set_waitKey_input after w)) as Hd.
    destruct (deliver _ _ _ _ _) as [r w'|e w'|w']; try by destruct Hd.
    destruct Hd as [-> Hw']; [done|].
    unfold quits in Hp. rewrite Hp. eauto.
  - simpl app. cbn [waitKey_loop].
    pose proof (deliver_returning window_name buffer (before ++ p :: after)
                  (mouse q) roi_points
                  (set_waitKey_input (before ++ p :: after) w)) as Hd.
    destruct (deliver _ _ _ _ _) as [r w'|e w'|w']; try by destruct Hd.
    destruct Hd as [-> [Hbuf' _]]; [done|].
    unfold quits in Hq. rewrite Hq.
    destruct (IH (roi_points ++ clicks (mouse q)) w' Hbuf') as (w'' & -> & Hw'').
    exists w''. split; [|done]. f_equal.
    change (concat (map mouse (q :: before)))
      with (mouse q ++ concat (map mouse before)).
    by rewrite <- (app_assoc (mouse q)), (clicks_app (mouse q)), app_assoc.
Qed.

Lemma get_spline_returning image_ name window_name p after before :
  quits p = true ->
  Forall (fun q => quits q = false) before ->
  returning
    (fun w => is_Some (heap w !! image_)
              /\ waitKey_input w = before ++ p :: after)
    (get_spline image_ name window_name)
    (fun r w => r = clicks (concat (map mouse before) ++ mouse p)
                /\ waitKey_input w = after).
Proof.
  intros Hp Hbefore. unfold returning, get_spline.
  set (polls := before ++ p :: after).
  assert (forall a (Q : positive -> World -> Prop),
            (forall l w, drawing_on l polls w -> Q l w) ->
            returning (fun w => waitKey_input w = polls) (alloc a) Q)
    as Halloc.
  { intros a Q HQ. apply triple_alloc. intros w Hw. apply HQ.
    split; [|done]. simpl. rewrite lookup_insert_eq. by eexists. }
  assert (forall l (Q : image -> World -> Prop),
            (forall a w, waitKey_input w = polls -> Q a w) ->
            returning (drawing_on l polls) (read l) Q) as Hread.
  { intros l Q HQ. apply triple_read. intros w [[a ->] Hw]. by apply HQ. }
  apply triple_bind with (Q1 := fun _ w => waitKey_input w = polls).
  { apply triple_read. by intros w [[a ->] Hw]. }
  intros pixels.
  apply triple_bind with (Q1 := fun l => drawing_on l polls);
    [by apply Halloc|].
  intros image_with_roi.
  apply triple_bind with (Q1 := fun _ w => waitKey_input w = polls);
    [by apply Hread|].
  intros copied.
  apply triple_bind with (Q1 := fun l => drawing_on l polls);
    [by apply Halloc|].
  intros img8bit.
  apply triple_bind with (Q1 := fun _ w => waitKey_input w = polls);
    [by apply Hread|].
  intros narrowed.
  apply triple_bind with (Q1 := fun l => drawing_on l polls);
    [by apply Halloc|].
  intros buffer.
  apply triple_bind with (Q1 := fun _ => drawing_on buffer polls).
  { by apply triple_effect. }
  intros _. apply triple_bind with (Q1 := fun _ => drawing_on buffer polls).
  { apply triple_read. intros w Hw. pose proof Hw as [[a Ha] _]. by rewrite Ha. }
  intros shown.
  apply triple_bind with (Q1 := fun _ => drawing_on buffer polls).
  { by apply triple_effect. }
  intros _. apply triple_bind with (Q1 := fun _ => drawing_on buffer polls).
  { by apply triple_effect. }
  intros _.
  apply triple_bind
    with (Q1 := fun r w => r = clicks (concat (map mouse before) ++ mouse p)
                           /\ waitKey_input w = after).
  { intros w [Hbuf Hw]. cbv beta. rewrite Hw. unfold polls.
    destruct (waitKey_loop_returning
                (match window_name with
                 | None => "Manually input Spline for " +:+ name
                 | Some window_name => window_name
                 end) buffer p after before
                Hp Hbefore [] w Hbuf) as (w' & -> & _ & Hw').
    done. }
  intros r.
  apply triple_bind
    with (Q1 := fun _ w => r = clicks (concat (map mouse before) ++ mouse p)
                           /\ waitKey_input w = after).
  { by apply triple_effect. }
  intros _. by apply triple_ret.
Qed.

End point_collector_result.

(** C7.  Left clicks are recorded one for one: whatever the points, however
    many, repeated or not, the clicks of a sequence of left-button-down
    events are its coordinates in the same order.  And a call of
    [get_spline] on an image, with an operator who presses the quit key in
    poll [p] and not before, returns exactly the clicks delivered up to and
    including that poll, in the order of delivery, and leaves the rest of
    the script unread. *)
Theorem get_spline_click_order `{Host} (image_ : positive) (name : string)
    (window_name : option string) (w : World) (pixels : image)
    (before : list Poll) (p : Poll) (after : list Poll) :
  heap w !! image_ = Some pixels ->
  waitKey_input w = before ++ p :: after ->
  Forall (fun q => quits q = false) before ->
  quits p = true ->
  (forall points : list (Z * Z),
     clicks (map (fun pt => left_click (fst pt) (snd pt)) points) = points) /\
  exists w',
    get_spline image_ name window_name w
      = Return (clicks (concat (map mouse before) ++ mouse p)) w' /\
    waitKey_input w' = after.
Proof.
  intros Himg Hpolls Hbefore Hp. split; [apply clicks_left_clicks|].
  pose proof (get_spline_returning image_ name window_name p after before
                Hp Hbefore w) as Hret.
  destruct (get_spline image_ name window_name w) as [r w'|e w'|w'].
  - destruct Hret as [-> Hw']; [by rewrite Himg|]. by exists w'.
  - destruct Hret. by rewrite Himg.
  - destruct Hret. by rewrite Himg.
Qed.

Lemma get_spline_click_order_witness :
  exists w',
    @get_spline example_host 1%positive "embryo" None
      (set_waitKey_input three_clicks
         (set_heap {[ 1%positive := flat_image 10 10 0 ]} quiet))
      = Return [(1, 1); (5, 5); (9, 1)] w' /\
    waitKey_input w' = [].
Proof.
  destruct (@get_spline_click_order example_host 1%positive "embryo" None
              (set_waitKey_input three_clicks
                 (set_heap {[ 1%positive := flat_image 10 10 0 ]} quiet))
              (flat_image 10 10 0)
              [ {| mouse := [left_click 1 1]; key_code := -1 |};
                {| mouse := [left_click 5 5]; key_code := -1 |} ]
              {| mouse := [left_click 9 1]; key_code := 113 |} [])
    as [_ (w' & Hrun & Hrest)].
  - reflexivity.
  - reflexivity.
  - repeat constructor.
  - reflexivity.
  - exists w'. split; [exact Hrun | exact Hrest].
Defined.

(** ** The window title does not matter to the point collector *)

Lemma alike_refl w : alike w w.
Proof. by repeat split. Qed.

Lemma related_ret {A} (a : A) : related (ret a) (ret a).
Proof. by intros w1 w2 Hw. Qed.

Lemma related_bind {A C} (m1 m2 : M A) (k1 k2 : A -> M C) :
  related m1 m2 -> (forall a, related (k1 a) (k2 a)) ->
  related (bind m1 k1) (bind m2 k2).
Proof.
  intros Hm Hk w1 w2 Hw. unfold bind. specialize (Hm w1 w2 Hw).
  destruct (m1 w1) as [a1 w1'|e1 w1'|w1'], (m2 w2) as [a2 w2'|e2 w2'|w2'];
    try done.
  destruct Hm as [-> Hw']. by apply Hk.
Qed.

Lemma related_or_raise {A} e (o : option A) : related (or_raise e o) (or_raise e o).
Proof. intros w1 w2 Hw. by destruct o. Qed.

Lemma related_read l : related (read l) (read l).
Proof.
  intros w1 w2 Hw. unfold read. pose proof Hw as (Hh & _). rewrite Hh.
  by destruct (heap w2 !! l).
Qed.

Lemma related_alloc a : related (alloc a) (alloc a).
Proof.
  intros w1 w2 (Hh & Hk & Hs & Ht). unfold alloc. rewrite Hh.
  by repeat split.
Qed.

Lemma related_draw l f : related (draw l f) (draw l f).
Proof.
  intros w1 w2 (Hh & Hk & Hs & Ht). unfold draw. rewrite Hh.
  by repeat split.
Qed.

Lemma related_effect e1 e2 :
  untitled e1 = untitled e2 -> related (effect e1) (effect e2).
Proof.
  intros He w1 w2 (Hh & Hk & Hs & Ht). unfold effect, emit.
  repeat split; simpl; try done.
  rewrite !map_app, Ht. simpl. by rewrite He.
Qed.

Section point_collector_titles.

Context `{Host}.

Lemma mouse_callback_related title1 title2 buffer ev roi_points :
  related (mouse_callback title1 buffer ev roi_points)
          (mouse_callback title2 buffer ev roi_points).
Proof.
  unfold mouse_callback.
  destruct (cv_event ev =? EVENT_LBUTTONDOWN); [|apply related_ret].
  apply related_bind; [apply related_draw|intros _].
  apply related_bind.
  { destruct (1 <? _)%nat; [|apply related_ret].
    apply related_bind; [apply related_or_raise|intros p].
    apply related_bind; [apply related_or_raise|intros q].
    apply related_draw. }
  intros _. apply related_bind; [apply related_read|intros shown].
  apply related_bind; [by apply related_effect|intros _].
  apply related_ret.
Qed.

Lemma deliver_related title1 title2 buffer evs : forall roi_points,
  related (deliver title1 buffer evs roi_points)
          (deliver title2 buffer evs roi_points).
Proof.
  induction evs as [|ev evs IH]; intros roi_points; simpl.
  - apply related_ret.
  - apply related_bind; [apply mouse_callback_related|]. intros r. apply IH.
Qed.

Lemma waitKey_loop_related title1 title2 buffer polls : forall roi_points,
  related (waitKey_loop polls title1 buffer roi_points)
          (waitKey_loop polls title2 buffer roi_points).
Proof.
  induction polls as [|p polls IH]; intros roi_points w1 w2 Hw;
    destruct Hw as (Hh & Hk & Hs & Ht); simpl.
  - by repeat split.
  - assert (alike (set_waitKey_input polls w1) (set_waitKey_input polls w2))
      as Hw by (by repeat split).
    pose proof (deliver_related title1 title2 buffer (mouse p) roi_points
                  _ _ Hw) as Hd.
    destruct (deliver title1 _ _ _ _) as [r1 w1'|e1 w1'|w1'],
             (deliver title2 _ _ _ _) as [r2 w2'|e2 w2'|w2']; try done.
    destruct Hd as [-> Hw'].
    destruct (_ =? ord_q); [done|]. by apply IH.
Qed.

Lemma get_spline_related image_ name title1 title2 :
  related (get_spline image_ name title1) (get_spline image_ name title2).
Proof.
  unfold get_spline.
  apply related_bind; [apply related_read|intros pixels].
  apply related_bind; [apply related_alloc|intros image_with_roi].
  apply related_bind; [apply related_read|intros copied].
  apply related_bind; [apply related_alloc|intros img8bit].
  apply related_bind; [apply related_read|intros narrowed].
  apply related_bind; [apply related_alloc|intros buffer].
  apply related_bind; [by apply related_effect|intros _].
  apply related_bind; [apply related_read|intros shown].
  apply related_bind; [by apply related_effect|intros _].
  apply related_bind; [by apply related_effect|intros _].
  apply related_bind.
  { intros w1 w2 Hw. cbv beta.
    replace (waitKey_input w2) with (waitKey_input w1)
      by (by destruct Hw as (_ & -> & _)).
    by apply waitKey_loop_related. }
  intros roi_points.
  apply related_bind; [by apply related_effect|intros _].
  apply related_ret.
Qed.

End point_collector_titles.

(** C9.  [get_contour(image, name)] is [get_spline(image, name)] called
    with the window title "Manually input Contour for <name>": the two end
    the same way, with the same points, in the same world.  And the title
    is all that sets it apart from any other call of [get_spline] on the
    same image (the default title included): they end the same way with
    the same points, arrays and unread input, and with traces that are
    equal once window names are blanked. *)
Theorem get_contour_is_get_spline `{Host} (image_ : positive) (name : string)
    (w : World) :
  get_contour image_ name w
    = get_spline image_ name (Some ("Manually input Contour for " +:+ name)) w /\
  forall window_name : option string,
    outcome_alike (get_contour image_ name w)
                  (get_spline image_ name window_name w).
Proof.
  assert (get_contour image_ name w
          = get_spline image_ name
              (Some ("Manually input Contour for " +:+ name)) w) as Heq.
  { unfold get_contour, bind, ret. by destruct (get_spline _ _ _ w). }
  split; [exact Heq|].
  intros window_name. rewrite Heq.
  apply get_spline_related, alike_refl.
Qed.

(** ** Configuration errors *)

Lemma index_last {A} (l : list A) : Py.index l (-1) = last l.
Proof.
  unfold Py.index. rewrite last_lookup.
  destruct l as [|a l]; [done|].
  destruct (-1 <? - Z.of_nat (length (a :: l))) eqn:Hlo;
    [cbn [length] in Hlo; apply Z.ltb_lt in Hlo; lia|].
  destruct (Z.of_nat (length (a :: l)) <=? -1) eqn:Hhi; [lia|]. simpl orb.
  cbv iota. f_equal. change (-1 <? 0) with true. cbv iota.
  cbn [length]. lia.
Qed.

Lemma never_ret {A} (a : A) : never_asserts (ret a).
Proof. by apply triple_ret. Qed.

Lemma never_bind {A C} (m : M A) (k : A -> M C) :
  never_asserts m -> (forall a, never_asserts (k a)) -> never_asserts (bind m k).
Proof. intros Hm Hk. eapply triple_bind; [exact Hm|]. intros a w _. by apply Hk. Qed.

Lemma never_raise {A} e : ~ is_assertion e -> never_asserts (@raise A e).
Proof. intros He. by apply triple_raise. Qed.

Lemma never_or_raise {A} e (o : option A) :
  ~ is_assertion e -> never_asserts (or_raise e o).
Proof. intros He. apply triple_or_raise. intros w _. by destruct o. Qed.

Lemma never_effect e : never_asserts (effect e).
Proof. by apply triple_effect. Qed.

Lemma never_read l : never_asserts (read l).
Proof.
  apply triple_read. intros w _. destruct (heap w !! l); [done|].
  by intros [msg [=]].
Qed.

Lemma never_alloc a : never_asserts (alloc a).
Proof. by apply triple_alloc. Qed.

Lemma never_draw l f : never_asserts (draw l f).
Proof. by apply triple_draw. Qed.

Lemma never_bind_Some {A C} e (a : A) (k : A -> M C) :
  never_asserts (k a) -> never_asserts (bind (or_raise e (Some a)) k).
Proof. intros Hk w Hw. exact (Hk w Hw). Qed.

Lemma never_assert_true msg : never_asserts (assert true msg).
Proof. apply never_ret. Qed.

Lemma not_assertion_IndexError : ~ is_assertion IndexError.
Proof. by intros [msg [=]]. Qed.

Lemma not_assertion_ValueError : ~ is_assertion ValueError.
Proof. by intros [msg [=]]. Qed.

Lemma not_assertion_OSError path : ~ is_assertion (OSError path).
Proof. by intros [msg [=]]. Qed.

Create HintDb never_asserts.

#[local] Hint Resolve never_ret never_effect never_read never_alloc never_draw
  never_assert_true never_or_raise never_raise
  not_assertion_IndexError not_assertion_ValueError not_assertion_OSError
  : never_asserts.

(** Walks down a computation written with [let!], splitting at every bind
    and every conditional. *)
Ltac never_asserts_walk :=
  repeat first
    [ solve [auto with never_asserts]
    | match goal with
      | |- never_asserts (bind _ _) => apply never_bind; [|intros ?]
      | |- never_asserts (if ?c then _ else _) => destruct c
      | |- never_asserts (match ?x with (_, _) => _ end) => destruct x
      end ].

Lemma get_mean_region_never_asserts image_ high_contrast name size vmax :
  never_asserts (get_mean_region image_ high_contrast name size vmax).
Proof.
  intros w _. unfold get_mean_region.
  generalize {| arg_image := image_; arg_high_contrast := high_contrast;
                arg_name := name; arg_size := size; arg_vmax := vmax |}.
  generalize w at 2. generalize (show_input w).
  induction l as [|events sessions IH]; intros w0 c; simpl; [done|].
  destruct (after_show_spec c events) as (st & _ & _ & ->).
  destruct (last (recorded st)); [done|]. apply IH.
Qed.

Lemma pd_set_loc_never_asserts key_ values df :
  never_asserts (pd.set_loc key_ values df).
Proof. unfold pd.set_loc. never_asserts_walk. Qed.

Section configuration.

Context `{Host}.

Lemma mouse_callback_never_asserts window_name buffer ev roi_points :
  never_asserts (mouse_callback window_name buffer ev roi_points).
Proof. unfold mouse_callback. never_asserts_walk. Qed.

Lemma deliver_never_asserts window_name buffer evs : forall roi_points,
  never_asserts (deliver window_name buffer evs roi_points).
Proof.
  induction evs as [|ev evs IH]; intros roi_points; simpl.
  - apply never_ret.
  - apply never_bind; [apply mouse_callback_never_asserts|]. intros r. apply IH.
Qed.

Lemma waitKey_loop_never_asserts polls window_name buffer : forall roi_points,
  never_asserts (waitKey_loop polls window_name buffer roi_points).
Proof.
  induction polls as [|p polls IH]; intros roi_points w _; simpl; [done|].
  pose proof (deliver_never_asserts window_name buffer (mouse p) roi_points
                (set_waitKey_input polls w) I) as Hd.
  destruct (deliver _ _ _ _ _) as [r w'|e w'|w']; [|done..].
  destruct (_ =? ord_q); [done|]. by apply IH.
Qed.

Lemma get_spline_never_asserts image_ name window_name :
  never_asserts (get_spline image_ name window_name).
Proof.
  unfold get_spline. never_asserts_walk.
  intros w _. by apply waitKey_loop_never_asserts.
Qed.

Lemma get_contour_never_asserts image_ name :
  never_asserts (get_contour image_ name).
Proof.
  unfold get_contour. apply never_bind; [apply get_spline_never_asserts|].
  intros r. apply never_ret.
Qed.

Lemma write_csv_never_asserts path df index : never_asserts (write_csv path df index).
Proof. unfold write_csv. never_asserts_walk. Qed.

Lemma label_channel_never_asserts layer channels_ name mid_layer size j
    channel_name dfs :
  never_asserts
    (label_channel layer channels_ name mid_layer size j channel_name dfs).
Proof.
  unfold label_channel. destruct dfs as [background_df signal_background_df].
  repeat first
    [ apply get_mean_region_never_asserts
    | apply pd_set_loc_never_asserts
    | progress never_asserts_walk ].
Qed.

Lemma label_channels_never_asserts layer channels_ name mid_layer size
    channel_names : forall j dfs,
  never_asserts
    (label_channels layer channels_ name mid_layer size j channel_names dfs).
Proof.
  induction channel_names as [|channel_name channel_names IH]; intros j dfs;
    simpl.
  - apply never_ret.
  - apply never_bind; [apply label_channel_never_asserts|]. intros dfs'.
    apply IH.
Qed.

(** Past its own assertion, [label] raises no AssertionError. *)
Lemma label_never_asserts stack_path out mid_frac channel_names size :
  last channel_names = Some "nuclear"%string ->
  never_asserts (label stack_path out mid_frac channel_names size).
Proof.
  intros Hlast. unfold label. rewrite index_last, Hlast.
  apply never_bind_Some. change (String.eqb "nuclear" "nuclear") with true.
  repeat first
    [ apply get_contour_never_asserts
    | apply get_spline_never_asserts
    | apply write_csv_never_asserts
    | apply label_channels_never_asserts
    | progress never_asserts_walk ].
Qed.

Lemma label_stacks_never_asserts folder data_out mid_frac channel_names total
    stack_names : forall i,
  last channel_names = Some "nuclear"%string ->
  never_asserts
    (label_stacks folder data_out mid_frac channel_names total i stack_names).
Proof.
  induction stack_names as [|name stack_names IH]; intros i Hlast; simpl.
  - apply never_ret.
  - apply never_bind; [apply never_effect|intros _].
    apply never_bind; [by apply label_never_asserts|intros _].
    by apply IH.
Qed.

Lemma label_folder_never_asserts folder mid_frac channel_names :
  path_exists folder = true ->
  last channel_names = Some "nuclear"%string ->
  never_asserts (label_folder folder mid_frac channel_names).
Proof.
  intros Hfolder Hlast. unfold label_folder.
  rewrite Hfolder, index_last, Hlast.
  apply never_bind; [apply never_assert_true|intros _].
  apply never_bind_Some. change (String.eqb "nuclear" "nuclear") with true.
  repeat first
    [ apply label_stacks_never_asserts; assumption
    | progress never_asserts_walk ].
Qed.

End configuration.

(** C8.  [label] and [label_folder] stop with an AssertionError, in the
    world as they found it (nothing shown, printed, created or written),
    when the last channel name is not "nuclear"; [label_folder] does so
    too, and first, when the folder does not exist.  When the folder exists
    and the last channel name is "nuclear", no AssertionError is raised
    anywhere in the run. *)
Theorem configuration_assertions `{Host} (folder stack_path out : string)
    (mid_frac : Q) (channel_names : list string) (size : Q) (w : World) :
  (forall last_name,
     last channel_names = Some last_name -> last_name <> "nuclear"%string ->
     label stack_path out mid_frac channel_names size w
       = Raise (AssertionError "The last channel must be nuclear.") w /\
     (path_exists folder = true ->
      label_folder folder mid_frac channel_names w
        = Raise (AssertionError "The last channel must be nuclear.") w)) /\
  (path_exists folder = false ->
   label_folder folder mid_frac channel_names w
     = Raise (AssertionError (folder +:+ " does not exist.")) w) /\
  (last channel_names = Some "nuclear"%string ->
   (forall e w', label stack_path out mid_frac channel_names size w = Raise e w' ->
                 ~ is_assertion e) /\
   (path_exists folder = true ->
    forall e w', label_folder folder mid_frac channel_names w = Raise e w' ->
                 ~ is_assertion e)).
Proof.
  split; [|split].
  - intros last_name Hlast Hne.
    assert (String.eqb last_name "nuclear" = false) as Heqb.
    { by apply String.eqb_neq. }
    split.
    + unfold label, bind. by rewrite index_last, Hlast; simpl; rewrite Heqb.
    + intros Hfolder. unfold label_folder, bind.
      by rewrite Hfolder, index_last, Hlast; simpl; rewrite Heqb.
  - intros Hfolder. unfold label_folder, bind. by rewrite Hfolder.
  - intros Hlast. split.
    + intros e w' Hrun.
      pose proof (label_never_asserts stack_path out mid_frac channel_names
                    size Hlast w I) as Hn.
      by rewrite Hrun in Hn.
    + intros Hfolder e w' Hrun.
      pose proof (label_folder_never_asserts folder mid_frac channel_names
                    Hfolder Hlast w I) as Hn.
      by rewrite Hrun in Hn.
Qed.

Lemma configuration_assertions_witness :
  @label example_host "scans/embryo" "data" (1 # 2) ["brk"; "dpp"]%string 50
    diligent
    = Raise (AssertionError "The last channel must be nuclear.") diligent /\
  @label_folder example_host "scans" (1 # 2) ["brk"; "dpp"]%string diligent
    = Raise (AssertionError "The last channel must be nuclear.") diligent /\
  @label_folder example_host "nowhere" (1 # 2) default_channel_names diligent
    = Raise (AssertionError "nowhere does not exist.") diligent /\
  (forall e w',
     @label_folder example_host "scans" (1 # 2) default_channel_names diligent
       = Raise e w' -> ~ is_assertion e).
Proof.
  pose proof (@configuration_assertions example_host "scans" "scans/embryo"
                "data" (1 # 2) ["brk"; "dpp"]%string 50 diligent)
    as (Hbad & _ & _).
  destruct (Hbad "dpp"%string eq_refl) as [Hlabel Hfolder]; [discriminate|].
  pose proof (@configuration_assertions example_host "nowhere" "scans/embryo"
                "data" (1 # 2) default_channel_names 50 diligent)
    as (_ & Hmissing & _).
  pose proof (@configuration_assertions example_host "scans" "scans/embryo"
                "data" (1 # 2) default_channel_names 50 diligent)
    as (_ & _ & Hgood).
  split; [exact Hlabel|]. split; [exact (Hfolder eq_refl)|].
  split; [exact (Hmissing eq_refl)|].
  exact (proj2 (Hgood eq_refl) eq_refl).
Defined.

(** ** The channel tables *)

Lemma bind_Return {A C} (m : M A) (k : A -> M C) w c w' :
  bind m k w = Return c w' ->
  exists a w1, m w = Return a w1 /\ k a w1 = Return c w'.
Proof.
  unfold bind. destruct (m w) as [a w1|e w1|w1]; [|done..]. eauto.
Qed.

Lemma or_raise_Return {A} e (o : option A) w a w' :
  or_raise e o w = Return a w' -> o = Some a /\ w' = w.
Proof. destruct o; [|done]. by intros [= -> ->]. Qed.

Lemma effect_Return e w u w' : effect e w = Return u w' -> w' = emit e w.
Proof. by intros [= _ <-]. Qed.

Lemma set_loc_Return key_ values df w df' w' :
  pd.set_loc key_ values df w = Return df' w' ->
  df' = {| columns := columns df;
           rows := pd.put_row (row_name key_) values (rows df) |}.
Proof.
  unfold pd.set_loc. destruct (_ =? _)%nat; [|done]. by intros [= <- _].
Qed.

(** Peels the first step off a computation that is known to return. *)
Ltac step H a w Ha :=
  apply bind_Return in H as (a & w & Ha & H).

Section channel_tables.

Context `{Host}.

Lemma write_csv_Return path df index w u w' :
  write_csv path df index w = Return u w' -> w' = emit (to_csv path df index) w.
Proof. unfold write_csv. destruct (writable path); [|done]. apply effect_Return. Qed.


(** One pass of the loop takes two samples for the channel and puts them
    under the channel's name, the mean first, then the center, the layer
    and the window size. *)
Lemma label_channel_rows layer channels_ name mid_layer size j channel_name
    background_df signal_background_df w dfs w' :
  label_channel layer channels_ name mid_layer size j channel_name
    (background_df, signal_background_df) w = Return dfs w' ->
  exists mean center mean' center',
    sampled layer name size j channel_name mean center mean' center' /\
    dfs = ({| columns := columns background_df;
              rows := pd.put_row (row_name channel_name)
                        [mean; Py.Fin (fst center); Py.Fin (snd center);
                         Py.Fin (inject_Z mid_layer); Py.Fin size]
                        (rows background_df) |},
           {| columns := columns signal_background_df;
              rows := pd.put_row (row_name channel_name)
                        [mean'; Py.Fin (fst center'); Py.Fin (snd center');
                         Py.Fin (inject_Z mid_layer); Py.Fin size]
                        (rows signal_background_df) |}).
Proof.
  unfold label_channel. intros Hrun.
  step Hrun u0 w0 H0.
  step Hrun sample w1 H1. destruct sample as [background background_center].
  step Hrun sample' w2 H2.
  destruct sample' as [signal_background signal_background_center].
  step Hrun df1 w3 H3. apply set_loc_Return in H3 as ->.
  step Hrun df2 w4 H4. apply set_loc_Return in H4 as ->.
  injection Hrun as <- _.
  exists background, background_center,
    signal_background, signal_background_center.
  split; [|reflexivity].
  exists w0, w1, w2. split; [exact H1 | exact H2].
Qed.

End channel_tables.

(** A row written in the order of [label] reads, by column name, as the
    shifted cells. *)
Lemma cells_of_row df channel mean center mid_layer size :
  columns df = table_columns ->
  row_values (row_name channel) (rows df)
    = Some [mean; Py.Fin (fst center); Py.Fin (snd center);
            Py.Fin (inject_Z mid_layer); Py.Fin size] ->
  cells_of df channel = shifted_cells mean center mid_layer size.
Proof.
  intros Hcolumns Hrow. unfold cells_of, cell. rewrite Hcolumns, Hrow.
  reflexivity.
Qed.

(** The shifted cells are the named cells of no sample, unless the window
    size is the index of the layer. *)
Lemma shifted_is_not_named mean center m c mid_layer size :
  size <> inject_Z mid_layer ->
  shifted_cells mean center mid_layer size <> named_cells m c mid_layer size.
Proof.
  intros Hsize Heq. apply (f_equal under_z) in Heq. simpl in Heq.
  injection Heq as Heq. by apply Hsize.
Qed.

Lemma channel_cells_intro `{Host} layer name mid_layer size
    background_df signal_background_df j channel mean center mean' center' :
  sampled layer name size j channel mean center mean' center' ->
  columns background_df = table_columns ->
  columns signal_background_df = table_columns ->
  row_values (row_name channel) (rows background_df)
    = Some [mean; Py.Fin (fst center); Py.Fin (snd center);
            Py.Fin (inject_Z mid_layer); Py.Fin size] ->
  row_values (row_name channel) (rows signal_background_df)
    = Some [mean'; Py.Fin (fst center'); Py.Fin (snd center');
            Py.Fin (inject_Z mid_layer); Py.Fin size] ->
  channel_cells layer name mid_layer size background_df signal_background_df
    j channel.
Proof.
  intros Hsampled Hcolumns Hcolumns' Hrow Hrow'.
  exists mean, center, mean', center'.
  split; [exact Hsampled|].
  rewrite (cells_of_row _ _ _ _ _ _ Hcolumns Hrow).
  rewrite (cells_of_row _ _ _ _ _ _ Hcolumns' Hrow').
  split; [reflexivity|]. split; [reflexivity|].
  intros Hsize m c. split; by apply shifted_is_not_named.
Qed.

(** C6, evaluated on the code.  When [label] is called with the default
    channel names ["brk", "dpp", "pMad", "nuclear"] and returns, the last
    five things it has done are to write the background table, to say so,
    to write the signal-and-background table, to say so, and to report the
    end.  Each of the two tables has the columns mean_intensity,
    window_length, x, y, z and exactly the rows brk, dpp and pMad.  Read by
    column name, the row of a channel holds the mean of its sample under
    mean_intensity, but the x of the sample's center under window_length,
    the y of the center under x, the index of the middle layer under y and
    the window size under z: every value after the mean sits one column to
    the left of the column of its name.  Unless the window size happens to
    be the index of the layer, no row is the row of any sample with its
    values under their own columns. *)
Theorem label_shifts_table_columns `{Host} (stack_path out : string)
    (mid_frac : Q) (size : Q) (w w' : World) :
  label stack_path out mid_frac default_channel_names size w = Return tt w' ->
  exists stack_ layer earlier background_df signal_background_df,
    imread (stack_path +:+ ".tif") = Some stack_ /\
    Py.index stack_ (Py.int (mid_frac * inject_Z (Z.of_nat (length stack_))))
      = Some layer /\
    trace w' =
      earlier ++
      [to_csv (out +:+ "/" +:+ Py.split_last "/" stack_path
               +:+ "_background.csv") background_df true;
       print ("Backgound data saved to "
              +:+ (out +:+ "/" +:+ Py.split_last "/" stack_path
                   +:+ "_background.csv") +:+ ".");
       to_csv (out +:+ "/" +:+ Py.split_last "/" stack_path
               +:+ "_signal_background.csv") signal_background_df true;
       print ("Signal + Background data saved to "
              +:+ (out +:+ "/" +:+ Py.split_last "/" stack_path
                   +:+ "_signal_background.csv") +:+ ".");
       print ("Finished labelling " +:+ stack_path +:+ ".")] /\
    columns background_df
      = ["mean_intensity"; "window_length"; "x"; "y"; "z"]%string /\
    columns signal_background_df
      = ["mean_intensity"; "window_length"; "x"; "y"; "z"]%string /\
    map fst (rows background_df)
      = [row_name "brk"; row_name "dpp"; row_name "pMad"] /\
    map fst (rows signal_background_df)
      = [row_name "brk"; row_name "dpp"; row_name "pMad"] /\
    Forall
      (fun '(j, channel) =>
         channel_cells layer (Py.split_last "/" stack_path)
           (Py.int (mid_frac * inject_Z (Z.of_nat (length stack_)))) size
           background_df signal_background_df j channel)
      [(0%nat, "brk"%string); (1%nat, "dpp"%string); (2%nat, "pMad"%string)].
Proof.
  unfold label. intros Hrun.
  step Hrun last_name w1 H1.
  step Hrun u2 w2 H2.
  step Hrun stack_ w3 H3. apply or_raise_Return in H3 as [Hread _].
  step Hrun layer w4 H4. apply or_raise_Return in H4 as [Hlayer _].
  step Hrun u5 w5 H5.
  step Hrun nuclear w6 H6.
  step Hrun shown_as w7 H7.
  step Hrun contour w8 H8.
  step Hrun u9 w9 H9.
  step Hrun u10 w10 H10.
  step Hrun u11 w11 H11.
  step Hrun spline w12 H12.
  step Hrun u13 w13 H13.
  step Hrun u14 w14 H14.
  step Hrun dfs w15 H15. destruct dfs as [background_df signal_background_df].
  step Hrun u16 w16 H16. apply write_csv_Return in H16 as ->.
  step Hrun u17 w17 H17. apply effect_Return in H17 as ->.
  step Hrun u18 w18 H18. apply write_csv_Return in H18 as ->.
  step Hrun u19 w19 H19. apply effect_Return in H19 as ->.
  apply effect_Return in Hrun as ->.
  change (Py.slice default_channel_names 0 (-1))
    with ["brk"; "dpp"; "pMad"]%string in H15.
  cbn [label_channels] in H15.
  step H15 dfs1 v1 Hbrk. destruct dfs1 as [bg1 sbg1].
  step H15 dfs2 v2 Hdpp. destruct dfs2 as [bg2 sbg2].
  step H15 dfs3 v3 HpMad.
  apply label_channel_rows in Hbrk
    as (m1 & c1 & m1' & c1' & Hs1 & [= -> ->]).
  apply label_channel_rows in Hdpp
    as (m2 & c2 & m2' & c2' & Hs2 & [= -> ->]).
  apply label_channel_rows in HpMad
    as (m3 & c3 & m3' & c3' & Hs3 & ->).
  injection H15 as <- <- _.
  eexists stack_, layer, (trace w15), _, _.
  split; [exact Hread|]. split; [exact Hlayer|]. split.
  { simpl. rewrite <- !app_assoc. reflexivity. }
  split; [reflexivity|]. split; [reflexivity|].
  split; [reflexivity|]. split; [reflexivity|].
  apply Forall_cons_2;
    [|apply Forall_cons_2; [|apply Forall_cons_2; [|apply Forall_nil_2]]].
  - by eapply channel_cells_intro.
  - by eapply channel_cells_intro.
  - by eapply channel_cells_intro.
Qed.

Lemma label_shifts_table_columns_witness :
  exists earlier background_df signal_background_df,
    trace (world_of (@label example_host "scans/embryo" "data" (1 # 4)
                       default_channel_names 2 dragging_down)) =
      earlier ++
      [to_csv "data/embryo_background.csv" background_df true;
       print "Backgound data saved to data/embryo_background.csv.";
       to_csv "data/embryo_signal_background.csv" signal_background_df true;
       print "Signal + Background data saved to data/embryo_signal_background.csv.";
       print "Finished labelling scans/embryo."] /\
    cells_of background_df "brk" =
      {| under_mean_intensity := Some (Py.Fin (162 # 4));
         under_window_length := Some (Py.Fin (2 # 2));
         under_x := Some (Py.Fin (6 # 2));
         under_y := Some (Py.Fin 0);
         under_z := Some (Py.Fin 2) |} /\
    cells_of signal_background_df "pMad" =
      {| under_mean_intensity := Some (Py.Fin (32930 # 4));
         under_window_length := Some (Py.Fin (2 # 2));
         under_x := Some (Py.Fin (6 # 2));
         under_y := Some (Py.Fin 0);
         under_z := Some (Py.Fin 2) |} /\
    (forall mean center,
       cells_of background_df "brk" <> named_cells mean center 0 2 /\
       cells_of signal_background_df "brk" <> named_cells mean center 0 2).
Proof.
  destruct (@label_shifts_table_columns example_host "scans/embryo" "data"
              (1 # 4) 2 dragging_down
              (world_of (@label example_host "scans/embryo" "data" (1 # 4)
                           default_channel_names 2 dragging_down)))
    as (stack_ & layer & earlier & background_df & signal_background_df
        & Hread & _ & Htrace & _ & _ & _ & _ & Hcells).
  { vm_compute. reflexivity. }
  injection Hread as <-.
  apply Forall_cons_1 in Hcells as [(_ & _ & _ & _ & _ & _ & _ & Hnamed) _].
  exists earlier, background_df, signal_background_df.
  split; [exact Htrace|].
  apply (f_equal (@rev Effect)) in Htrace.
  rewrite rev_app_distr in Htrace. vm_compute in Htrace.
  injection Htrace as <- <- _.
  split; [reflexivity|]. split; [reflexivity|].
  apply Hnamed. discriminate.
Defined.

(** * Further properties of the code *)

(** ** Drags *)

Lemma show_app image_ name size events1 events2 : forall st,
  show image_ name size (events1 ++ events2) st =
    match show image_ name size events1 st with
    | inl e => inl e
    | inr st1 => show image_ name size events2 st1
    end.
Proof.
  induction events1 as [|ev events1 IH]; intros st; simpl; [done|].
  destruct (dispatch image_ name size ev st); [done|]. apply IH.
Qed.

Lemma dragging_press h p s : dragging h p (extents s) (press h p s).
Proof. by repeat split. Qed.

(** One pointer move during a drag. *)
Lemma dispatch_move image_ name size h p e c st :
  dragging h p e (selector st) ->
  exists st',
    dispatch image_ name size (motion_notify c) st = inr st' /\
    dragging h p e (selector st') /\
    extents (selector st') =
      (if bool_decide (h = Some "C"%string)
       then shifted (xdata c - xdata p) (ydata c - ydata p) e else e) /\
    means st' = means st /\ centers st' = centers st /\ title st' = title st.
Proof.
  intros (Hp & He & Hh). simpl. rewrite Hp.
  rewrite (onmove_spec (selector st) c p e Hp He), Hh.
  eexists. split; [reflexivity|]. simpl.
  by repeat split.
Qed.

(** Pointer moves during a drag: only the last one counts. *)
Lemma show_moves image_ name size h p e moves : forall st,
  dragging h p e (selector st) ->
  exists st',
    show image_ name size (map motion_notify moves) st = inr st' /\
    dragging h p e (selector st') /\
    extents (selector st') =
      match last moves with
      | None => extents (selector st)
      | Some c =>
          if bool_decide (h = Some "C"%string)
          then shifted (xdata c - xdata p) (ydata c - ydata p) e else e
      end /\
    means st' = means st /\ centers st' = centers st /\ title st' = title st.
Proof.
  induction moves as [|c moves IH]; intros st Hd.
  - exists st. split; [done|]. split; [exact Hd|]. by repeat split.
  - destruct (dispatch_move image_ name size h p e c st Hd)
      as (st1 & Hst1 & Hd1 & Hext1 & Hm1 & Hc1 & Ht1).
    destruct (IH st1 Hd1) as (st' & Hst' & Hd' & Hext' & Hm' & Hc' & Ht').
    exists st'. cbn [map show]. rewrite Hst1.
    split; [exact Hst'|]. split; [exact Hd'|].
    split; [|by rewrite Hm', Hc', Ht'].
    rewrite Hext'. destruct moves as [|c' moves]; [exact Hext1|].
    change (last (c :: c' :: moves)) with (last (c' :: moves)).
    destruct (last (c' :: moves)) eqn:Hlast; [done|].
    by apply last_None in Hlast.
Qed.

Lemma shifted_zero e : same_extent (shifted 0 0 e) e.
Proof. destruct e as [[[x0 x1] y0] y1]. simpl. repeat split; ring. Qed.




(** X2.  No handle but "C" moves or resizes the rectangle: after a press
    that grabbed any other handle, or none, pointer moves leave the extent
    as it was at press time. *)
Theorem other_handles_do_nothing (image_ : image) (name : string) (size : Q)
    (st : Session) (h : option string) (p : MouseEvent)
    (moves : list MouseEvent) :
  h <> Some "C"%string ->
  exists st',
    show image_ name size (button_press h p :: map motion_notify moves) st
      = inr st' /\
    extents (selector st') = extents (selector st) /\
    means st' = means st /\ centers st' = centers st.
Proof.
  intros Hh.
  set (st0 := {| selector := press h p (selector st);
                 means := means st; centers := centers st;
                 title := title st |}).
  destruct (show_moves image_ name size h p (extents (selector st)) moves st0)
    as (st' & Hst' & _ & Hext & Hm & Hc & _).
  { apply dragging_press. }
  exists st'. cbn [show dispatch]. fold st0.
  split; [exact Hst'|]. split; [|by split].
  rewrite Hext. rewrite bool_decide_eq_false_2 by done.
  by destruct (last moves).
Qed.

Lemma other_handles_do_nothing_witness :
  exists st',
    show (flat_image 60 60 7) "brk" 50
      (button_press (Some "NW"%string) {| xdata := 0; ydata := 0 |}
         :: map motion_notify [ {| xdata := 10; ydata := 12 |};
                                {| xdata := 20; ydata := 3 # 2 |} ])
      (open_session "brk" 50) = inr st' /\
    extents (selector st') = (0, 50, 0, 50)%Q.
Proof.
  destruct (other_handles_do_nothing (flat_image 60 60 7) "brk" 50
              (open_session "brk" 50) (Some "NW"%string)
              {| xdata := 0; ydata := 0 |}
              [ {| xdata := 10; ydata := 12 |};
                {| xdata := 20; ydata := 3 # 2 |} ])
    as (st' & Hst' & Hext & _).
  - discriminate.
  - exists st'. split; [exact Hst' | exact Hext].
Defined.


(** ** Sessions: what a reset forgets, and how samples add up *)

Lemma init_at_rest size : at_rest (FixedSizeRectangleSelector.__init__ size).
Proof. split; [done|]. by simpl. Qed.

Lemma press_at_rest h p s : at_rest s -> at_rest (press h p s).
Proof. intros [Hallow _]. split; [exact Hallow|]. simpl. discriminate. Qed.

Lemma release_at_rest s : at_rest s -> at_rest (release s).
Proof. intros [Hallow _]. split; [exact Hallow|]. by simpl. Qed.

Lemma set_extents_at_rest e s : at_rest s -> at_rest (set_extents e s).
Proof. intros [Hallow Hrest]. split; [exact Hallow|]. exact Hrest. Qed.

Lemma onselect_selector image_ st : selector (onselect image_ st) = selector st.
Proof.
  unfold onselect. by destruct (extents (selector st)) as [[[? ?] ?] ?].
Qed.

(** The press state of the selector follows the buttons, and a selector at
    rest stays consistent. *)
Lemma dispatch_held image_ name size ev st st' held :
  dispatch image_ name size ev st = inr st' ->
  at_rest (selector st) ->
  (held = true <-> is_Some (_eventpress (selector st))) ->
  at_rest (selector st') /\
  (held_after held [ev] = true <-> is_Some (_eventpress (selector st'))).
Proof.
  intros Hd Hrest Hheld.
  destruct ev as [handle event|event|completed|key]; simpl in Hd |- *.
  - injection Hd as <-. simpl. split; [by apply press_at_rest|].
    split; [by eexists|done].
  - destruct (_eventpress (selector st)) as [p|] eqn:Hp.
    + destruct (_extents_on_press (selector st)) as [e|] eqn:He.
      * rewrite (onmove_spec (selector st) event p e Hp He) in Hd.
        injection Hd as <-. simpl. split; [by apply set_extents_at_rest|].
        by rewrite Hp.
      * unfold FixedSizeRectangleSelector._onmove in Hd.
        by rewrite Hp, He in Hd.
    + injection Hd as <-. split; [done|]. by rewrite Hp.
  - destruct (_eventpress (selector st)) as [p|] eqn:Hp.
    + injection Hd as <-. simpl. split.
      * apply release_at_rest. destruct completed; [|done].
        by rewrite onselect_selector.
      * split; [done|]. by intros [? [=]].
    + injection Hd as <-. split; [done|]. rewrite Hp.
      split; [done|]. by intros [? [=]].
  - injection Hd as <-. unfold reset.
    destruct (String.eqb key "r"); simpl; [|done].
    split; [by apply set_extents_at_rest|done].
Qed.

Lemma show_held image_ name size events : forall st st' held,
  show image_ name size events st = inr st' ->
  at_rest (selector st) ->
  (held = true <-> is_Some (_eventpress (selector st))) ->
  at_rest (selector st') /\
  (held_after held events = true <-> is_Some (_eventpress (selector st'))).
Proof.
  induction events as [|ev events IH]; intros st st' held Hs Hrest Hheld.
  - injection Hs as <-. by split.
  - simpl in Hs.
    destruct (dispatch image_ name size ev st) as [e|st1] eqn:Hd; [done|].
    destruct (dispatch_held image_ name size ev st st1 held Hd Hrest Hheld)
      as [Hrest1 Hheld1].
    destruct (IH st1 st' (held_after held [ev]) Hs Hrest1 Hheld1)
      as [Hrest' Hheld'].
    split; [exact Hrest'|].
    replace (held_after held (ev :: events))
      with (held_after (held_after held [ev]) events); [exact Hheld'|].
    by destruct ev.
Qed.

(** Older centers at the front of the list change nothing a session does. *)
Lemma dispatch_restarted image_ name size ev st1 st2 :
  restarted st1 st2 ->
  match dispatch image_ name size ev st1, dispatch image_ name size ev st2 with
  | inr st1', inr st2' => restarted st1' st2'
  | inl e1, inl e2 => e1 = e2
  | _, _ => False
  end.
Proof.
  intros (Hsel & Hmeans & stale & Hcenters).
  destruct ev as [handle event|event|completed|key]; simpl; rewrite <- ?Hsel.
  - unfold restarted. simpl. eauto.
  - destruct (_eventpress (selector st1)); [|unfold restarted; eauto].
    destruct (FixedSizeRectangleSelector._onmove (selector st1) event);
      [done|].
    unfold restarted. simpl. eauto.
  - destruct (_eventpress (selector st1)); [|unfold restarted; eauto].
    destruct completed.
    + unfold restarted, onselect. rewrite <- Hsel.
      destruct (extents (selector st1)) as [[[e1 e2] e3] e4]. simpl.
      split; [done|]. split; [by rewrite Hmeans|].
      exists stale. by rewrite Hcenters, app_assoc.
    + unfold restarted. simpl. rewrite <- Hsel. eauto.
  - unfold reset. destruct (String.eqb key "r").
    + unfold restarted. simpl. rewrite <- Hsel. eauto.
    + unfold restarted. eauto.
Qed.

Lemma show_restarted image_ name size events : forall st1 st2 st1',
  restarted st1 st2 ->
  show image_ name size events st1 = inr st1' ->
  exists st2', show image_ name size events st2 = inr st2'
               /\ restarted st1' st2'.
Proof.
  induction events as [|ev events IH]; intros st1 st2 st1' Hr Hs; simpl in *.
  - injection Hs as <-. eauto.
  - pose proof (dispatch_restarted image_ name size ev st1 st2 Hr) as Hd.
    destruct (dispatch image_ name size ev st1) as [e1|st1''],
             (dispatch image_ name size ev st2) as [e2|st2'']; try done.
    by eapply IH.
Qed.

(** X4.  A reset while no button is held starts the session over: whatever
    was dragged and confirmed before the key "r", the call then returns
    or repeats exactly as if the window had just been opened and had
    received only the later events. *)
Theorem reset_restarts_session (c : Call) (before after : list GuiEvent) :
  held_after false before = false ->
  after_show c (before ++ key_press "r" :: after) = after_show c after.
Proof.
  intros Hheld. unfold after_show.
  set (image_ := arg_image c). set (name := arg_name c).
  set (size := arg_size c).
  destruct (show_ok image_ name size before (open_session name size))
    as (st1 & Hst1 & _); [apply init_ok|].
  destruct (show_held image_ name size before (open_session name size) st1
              false Hst1) as [[Hallow Hrest] Hpressed].
  { apply init_at_rest. }
  { split; [done|]. by intros [? [=]]. }
  assert (_eventpress (selector st1) = None) as Hnone.
  { destruct (_eventpress (selector st1)) eqn:Hp; [|done].
    assert (held_after false before = true) as Habs
      by (apply Hpressed; by eexists).
    by rewrite Hheld in Habs. }
  destruct (Hrest Hnone) as [Hsnap Hhandle].
  rewrite show_app, Hst1. cbn [show].
  change (dispatch image_ name size (key_press "r") st1)
    with (@inr exn Session (reset name size "r" st1)).
  cbv iota.
  assert (restarted (reset name size "r" st1) (open_session name size)) as Hr.
  { split; [|split].
    - unfold reset, open_session, FixedSizeRectangleSelector.__init__,
        set_extents. simpl. by rewrite Hallow, Hnone, Hsnap, Hhandle.
    - done.
    - exists (centers st1). by rewrite app_nil_r. }
  destruct (show_ok image_ name size after (reset name size "r" st1))
    as (st1' & Hst1' & _).
  { apply set_initial_extents_ok.
    destruct (show_ok image_ name size before (open_session name size))
      as (st1b & Hst1b & Hok); [apply init_ok|].
    rewrite Hst1 in Hst1b. by injection Hst1b as ->. }
  destruct (show_restarted image_ name size after _ _ st1' Hr Hst1')
    as (st2' & Hst2' & Hsel & Hmeans & stale & Hcenters).
  rewrite Hst1', Hst2', Hmeans, Hcenters.
  assert (lists_ok st2') as Hok.
  { eapply show_lists_ok; [exact Hst2'|]. unfold lists_ok. simpl. lia. }
  destruct (means st2') as [|m ms] eqn:Hm; [done|].
  destruct (centers st2') as [|x xs] eqn:Hc.
  { unfold lists_ok in Hok. rewrite Hm, Hc in Hok. simpl in Hok. lia. }
  rewrite last_app. by destruct (last (x :: xs)) eqn:Hlast;
    [|apply last_None in Hlast].
Qed.

Lemma reset_restarts_session_witness :
  after_show
    {| arg_image := flat_image 60 60 7; arg_high_contrast := None;
       arg_name := "brk"; arg_size := 50; arg_vmax := None |}
    ([button_press (Some "C"%string) {| xdata := 25; ydata := 25 |};
      motion_notify {| xdata := 30; ydata := 28 |};
      button_release true]
     ++ key_press "r"
     :: [button_press None {| xdata := 1; ydata := 1 |}; button_release true])
  = after_show
      {| arg_image := flat_image 60 60 7; arg_high_contrast := None;
         arg_name := "brk"; arg_size := 50; arg_vmax := None |}
      [button_press None {| xdata := 1; ydata := 1 |}; button_release true].
Proof.
  apply (reset_restarts_session
           {| arg_image := flat_image 60 60 7; arg_high_contrast := None;
              arg_name := "brk"; arg_size := 50; arg_vmax := None |}
           [button_press (Some "C"%string) {| xdata := 25; ydata := 25 |};
            motion_notify {| xdata := 30; ydata := 28 |};
            button_release true]).
  reflexivity.
Defined.

Lemma confirmations_cons held ev events :
  confirmations held (ev :: events) =
    (confirmations held [ev] + confirmations (held_after held [ev]) events)%nat.
Proof. destruct ev; simpl; lia. Qed.

Lemma dispatch_counts image_ name size ev st st' held :
  dispatch image_ name size ev st = inr st' ->
  (held = true <-> is_Some (_eventpress (selector st))) ->
  length (centers st') = (length (centers st) + confirmations held [ev])%nat /\
  (is_reset ev = false ->
   length (means st') = (length (means st) + confirmations held [ev])%nat).
Proof.
  intros Hd Hheld.
  destruct ev as [handle event|event|completed|key]; simpl in Hd |- *.
  - injection Hd as <-. simpl. lia.
  - destruct (_eventpress (selector st)); [|injection Hd as <-; lia].
    destruct (FixedSizeRectangleSelector._onmove _ _); [done|].
    injection Hd as <-. simpl. lia.
  - destruct (_eventpress (selector st)) as [p|] eqn:Hp.
    + assert (held = true) as -> by (apply Hheld; by eexists).
      injection Hd as <-. simpl. destruct completed; simpl; [|lia].
      unfold onselect. destruct (extents (selector st)) as [[[? ?] ?] ?].
      simpl. rewrite !length_app. simpl. lia.
    + assert (held = false) as ->.
      { destruct held; [|done]. by destruct (proj1 Hheld eq_refl). }
      injection Hd as <-. simpl. lia.
  - injection Hd as <-. unfold reset.
    destruct (String.eqb key "r"); simpl; [|lia].
    split; [lia|done].
Qed.

Lemma show_counts image_ name size events : forall st st' held,
  show image_ name size events st = inr st' ->
  at_rest (selector st) ->
  (held = true <-> is_Some (_eventpress (selector st))) ->
  length (centers st') = (length (centers st) + confirmations held events)%nat /\
  (forallb (fun ev => negb (is_reset ev)) events = true ->
   length (means st') = (length (means st) + confirmations held events)%nat).
Proof.
  induction events as [|ev events IH]; intros st st' held Hs Hrest Hheld.
  - injection Hs as <-. simpl. lia.
  - simpl in Hs.
    destruct (dispatch image_ name size ev st) as [e|st1] eqn:Hd; [done|].
    destruct (dispatch_held image_ name size ev st st1 held Hd Hrest Hheld)
      as [Hrest1 Hheld1].
    destruct (dispatch_counts image_ name size ev st st1 held Hd Hheld)
      as [Hc1 Hm1].
    destruct (IH st1 st' (held_after held [ev]) Hs Hrest1 Hheld1)
      as [Hc' Hm'].
    rewrite confirmations_cons. split; [lia|].
    cbn [forallb]. intros [Hev Hevents]%andb_true_iff.
    apply negb_true_iff in Hev. specialize (Hm1 Hev). specialize (Hm' Hevents).
    lia.
Qed.

(** X5.  Samples add up one per confirmed selection: when the window is
    closed, [centers] holds exactly as many entries as there were completed
    releases ending a press, resets or not; [means] never holds more, and
    holds exactly as many if the key "r" was never pressed. *)
Theorem samples_add_up (image_ : image) (name : string) (size : Q)
    (events : list GuiEvent) :
  exists st,
    show image_ name size events (open_session name size) = inr st /\
    length (centers st) = confirmations false events /\
    (length (means st) <= length (centers st))%nat /\
    (forallb (fun ev => negb (is_reset ev)) events = true ->
     length (means st) = confirmations false events).
Proof.
  destruct (show_ok image_ name size events (open_session name size))
    as (st & Hst & _); [apply init_ok|].
  destruct (show_counts image_ name size events (open_session name size) st
              false Hst) as [Hc Hm].
  { apply init_at_rest. }
  { split; [done|]. by intros [? [=]]. }
  exists st. split; [exact Hst|]. split; [exact Hc|]. split; [|exact Hm].
  eapply show_lists_ok; [exact Hst|]. unfold lists_ok. simpl. lia.
Qed.

Lemma samples_add_up_witness :
  exists st,
    show (flat_image 60 60 7) "brk" 50
      [button_press None {| xdata := 1; ydata := 1 |}; button_release true;
       button_release true;
       button_press None {| xdata := 2; ydata := 2 |}; button_release false;
       button_press None {| xdata := 3; ydata := 3 |}; button_release true]
      (open_session "brk" 50) = inr st /\
    length (centers st) = 2%nat /\ length (means st) = 2%nat.
Proof.
  destruct (samples_add_up (flat_image 60 60 7) "brk" 50
              [button_press None {| xdata := 1; ydata := 1 |};
               button_release true; button_release true;
               button_press None {| xdata := 2; ydata := 2 |};
               button_release false;
               button_press None {| xdata := 3; ydata := 3 |};
               button_release true])
    as (st & Hst & Hc & _ & Hm).
  exists st. split; [exact Hst|]. split; [exact Hc|]. exact (Hm eq_refl).
Defined.

(** ** The point collector: waiting, returning, and what it shows *)

Lemma quits_mod p : quits p = true <-> key_code p mod 256 = ord_q.
Proof.
  unfold quits. rewrite Z.eqb_eq.
  change 255 with (Z.ones 8). by rewrite Z.land_ones by lia.
Qed.

Lemma not_quits_mod p : quits p = false <-> key_code p mod 256 <> ord_q.
Proof.
  rewrite <- quits_mod. destruct (quits p); split; congruence.
Qed.

(** A script either never shows the quit key or has a first poll that
    does. *)
Lemma first_quit (polls : list Poll) :
  Forall (fun q => quits q = false) polls \/
  exists before p after,
    polls = before ++ p :: after /\
    Forall (fun q => quits q = false) before /\ quits p = true.
Proof.
  induction polls as [|q polls IH]; [by left|].
  destruct (quits q) eqn:Hq.
  - right. exists [], q, polls. by repeat split.
  - destruct IH as [Hnone|(before & p & after & -> & Hbefore & Hp)].
    + left. by constructor.
    + right. exists (q :: before), p, after. repeat split; [|done].
      by constructor.
Qed.

Section point_collector_session.

Context `{Host}.

(** What [get_spline] has done when it enters its loop: three arrays made,
    the last of them shown in a new window. *)
Lemma get_spline_setup image_ name window_name w pixels :
  heap w !! image_ = Some pixels ->
  exists buffer h1,
    heap w ⊆ h1 /\
    h1 !! buffer = Some (equalizeHist (np.to8bit pixels)) /\
    get_spline image_ name window_name w =
      match waitKey_loop (waitKey_input w) (spline_title name window_name)
              buffer []
              {| heap := h1;
                 waitKey_input := waitKey_input w;
                 show_input := show_input w;
                 trace := trace w ++
                   [namedWindow (spline_title name window_name);
                    imshow (spline_title name window_name)
                      (equalizeHist (np.to8bit pixels));
                    setMouseCallback (spline_title name window_name)] |}
      with
      | Return roi_points w' => Return roi_points (emit destroyAllWindows w')
      | Raise e w' => Raise e w'
      | Blocked w' => Blocked w'
      end.
Proof.
  intros Himg.
  set (l1 := fresh (dom (heap w))).
  set (h1 := <[l1 := pixels]> (heap w)).
  set (l2 := fresh (dom h1)).
  set (h2 := <[l2 := np.to8bit pixels]> h1).
  set (l3 := fresh (dom h2)).
  set (h3 := <[l3 := equalizeHist (np.to8bit pixels)]> h2).
  exists l3, h3. split; [|split].
  - etrans; [|etrans]; [| |apply insert_subseteq, not_elem_of_dom, is_fresh].
    + apply insert_subseteq, not_elem_of_dom, is_fresh.
    + apply insert_subseteq, not_elem_of_dom, is_fresh.
  - apply lookup_insert_eq.
  - unfold get_spline, bind, read, alloc, effect, or_raise, ret, emit,
      set_heap. simpl. rewrite Himg. simpl.
    fold l1. fold h1. unfold h1 at 1. rewrite lookup_insert_eq. simpl.
    fold l2. fold h2. unfold h2 at 1. rewrite lookup_insert_eq. simpl.
    fold l3. fold h3. unfold h3 at 1. rewrite lookup_insert_eq. simpl.
    rewrite <- !app_assoc. simpl.
    fold (spline_title name window_name).
    by destruct (waitKey_loop _ _ _ _ _).
Qed.

Lemma waitKey_loop_blocked window_name buffer polls :
  Forall (fun q => quits q = false) polls ->
  forall roi_points w,
    is_Some (heap w !! buffer) ->
    exists w',
      waitKey_loop polls window_name buffer roi_points w = Blocked w' /\
      waitKey_input w' = [].
Proof.
  induction 1 as [|q polls Hq _ IH]; intros roi_points w Hbuf;
    cbn [waitKey_loop].
  - by eexists.
  - pose proof (deliver_returning window_name buffer polls (mouse q)
                  roi_points (set_waitKey_input polls w)) as Hd.
    destruct (deliver _ _ _ _ _) as [r w'|e w'|w']; try by destruct Hd.
    destruct Hd as [_ [Hbuf' _]]; [done|].
    unfold quits in Hq. rewrite Hq. by apply IH.
Qed.




End point_collector_session.

(** X6.  Only the quit key ends the point collector: on an image, with a
    script in which no poll returns a key code whose low byte is that of
    "q", [get_spline] reads the whole script and is still waiting. *)
Theorem get_spline_waits_for_quit `{Host} (image_ : positive) (name : string)
    (window_name : option string) (w : World) (pixels : image) :
  heap w !! image_ = Some pixels ->
  Forall (fun p => key_code p mod 256 <> 113) (waitKey_input w) ->
  exists w',
    get_spline image_ name window_name w = Blocked w' /\
    waitKey_input w' = [].
Proof.
  intros Himg Hpolls.
  destruct (get_spline_setup image_ name window_name w pixels Himg)
    as (buffer & h1 & _ & Hbuf & ->).
  match goal with
  | |- context [waitKey_loop _ _ _ _ ?x] => set (w1 := x)
  end.
  destruct (waitKey_loop_blocked (spline_title name window_name) buffer
              (waitKey_input w)) with (roi_points := @nil (Z * Z)) (w := w1)
    as (w' & -> & Hw').
  - eapply Forall_impl; [exact Hpolls|]. intros p Hp. by apply not_quits_mod.
  - eexists. exact Hbuf.
  - by exists w'.
Qed.

Lemma get_spline_waits_for_quit_witness :
  exists w',
    @get_spline example_host 1%positive "embryo" None
      (set_waitKey_input
         [ {| mouse := [left_click 1 1]; key_code := -1 |};
           {| mouse := []; key_code := 81 |} ]
         (set_heap {[ 1%positive := flat_image 10 10 0 ]} quiet))
      = Blocked w' /\
    waitKey_input w' = [].
Proof.
  apply (@get_spline_waits_for_quit example_host 1%positive "embryo" None
           (set_waitKey_input
              [ {| mouse := [left_click 1 1]; key_code := -1 |};
                {| mouse := []; key_code := 81 |} ]
              (set_heap {[ 1%positive := flat_image 10 10 0 ]} quiet))
           (flat_image 10 10 0)).
  - reflexivity.
  - repeat constructor; simpl; discriminate.
Defined.

(** X7.  If [get_spline] returns, the operator has pressed the quit key:
    the image was an array, the script had a first poll whose key code has
    the low byte of "q", the points returned are the left clicks delivered
    up to and including that poll, and the polls after it are unread. *)
Theorem get_spline_returns_on_quit `{Host} (image_ : positive) (name : string)
    (window_name : option string) (w w' : World) (r : list (Z * Z)) :
  get_spline image_ name window_name w = Return r w' ->
  exists pixels before p after,
    heap w !! image_ = Some pixels /\
    waitKey_input w = before ++ p :: after /\
    Forall (fun q => key_code q mod 256 <> 113) before /\
    key_code p mod 256 = 113 /\
    r = clicks (concat (map mouse before) ++ mouse p) /\
    waitKey_input w' = after.
Proof.
  intros Hrun.
  destruct (heap w !! image_) as [pixels|] eqn:Himg.
  2: { unfold get_spline, bind, read in Hrun. by rewrite Himg in Hrun. }
  destruct (first_quit (waitKey_input w))
    as [Hnone|(before & p & after & Hpolls & Hbefore & Hp)].
  - destruct (get_spline_setup image_ name window_name w pixels Himg)
      as (buffer & h1 & _ & Hbuf & Heq).
    match type of Heq with
    | context [waitKey_loop _ _ _ _ ?x] => set (w1 := x) in Heq
    end.
    destruct (waitKey_loop_blocked (spline_title name window_name) buffer
                (waitKey_input w) Hnone [] w1) as (w2 & Hw2 & _).
    { eexists. exact Hbuf. }
    by rewrite Heq, Hw2 in Hrun.
  - pose proof (get_spline_returning image_ name window_name p after before
                  Hp Hbefore w) as Hret.
    rewrite Hrun in Hret. destruct Hret as [-> Hafter].
    { split; [by rewrite Himg|done]. }
    exists pixels, before, p, after. repeat split; try done.
    + eapply Forall_impl; [exact Hbefore|]. intros q. apply not_quits_mod.
    + by apply quits_mod.
Qed.

Lemma get_spline_returns_on_quit_witness :
  exists pixels before p after,
    heap (set_waitKey_input three_clicks
            (set_heap {[ 1%positive := flat_image 10 10 0 ]} quiet))
      !! 1%positive = Some pixels /\
    three_clicks = before ++ p :: after /\
    key_code p mod 256 = 113 /\
    [(1, 1); (5, 5); (9, 1)] = clicks (concat (map mouse before) ++ mouse p).
Proof.
  destruct (@get_spline_returns_on_quit example_host 1%positive "embryo" None
              (set_waitKey_input three_clicks
                 (set_heap {[ 1%positive := flat_image 10 10 0 ]} quiet))
              (world_of
                 (@get_spline example_host 1%positive "embryo" None
                    (set_waitKey_input three_clicks
                       (set_heap {[ 1%positive := flat_image 10 10 0 ]}
                          quiet))))
              [(1, 1); (5, 5); (9, 1)])
    as (pixels & before & p & after & H1 & H2 & _ & H4 & H5 & _).
  - vm_compute. reflexivity.
  - exists pixels, before, p, after. by repeat split.
Defined.



(** ** label: failures before any window is opened *)

(** X9.  An empty list of channel names is not reported by the assertion:
    reading its last element raises IndexError, in [label] at once and in
    [label_folder] once the folder is known to exist, and nothing has been
    shown, printed, created or written. *)
Theorem empty_channel_names `{Host} (folder stack_path out : string)
    (mid_frac size : Q) (w : World) :
  label stack_path out mid_frac [] size w = Raise IndexError w /\
  (path_exists folder = true ->
   label_folder folder mid_frac [] w = Raise IndexError w).
Proof.
  split; [reflexivity|].
  intros Hfolder. unfold label_folder, bind. by rewrite Hfolder.
Qed.

Lemma empty_channel_names_witness :
  @label_folder example_host "scans" (1 # 2) [] diligent
    = Raise IndexError diligent.
Proof.
  apply (@empty_channel_names example_host "scans" "scans/embryo" "data"
           (1 # 2) 50 diligent).
  reflexivity.
Defined.

Lemma int_scaled (q : Q) (n : Z) :
  Py.int (q * inject_Z n) = Z.quot (Qnum q * n) (Z.pos (Qden q)).
Proof. unfold Py.int. simpl. by rewrite Pos.mul_1_r. Qed.

(** X10.  The middle layer.  For a stack with at least one layer and a
    fraction [0 <= mid_frac < 1], the index [int(mid_frac * shape[0])] is
    that of an existing layer, counted from the front.  For any fraction
    [mid_frac >= 1] it is past the last layer of every stack, and indexing
    fails. *)
Theorem mid_layer_exists (stack_ : stack) (mid_frac : Q) :
  let mid_layer := Py.int (mid_frac * inject_Z (Z.of_nat (length stack_))) in
  ((0 <= mid_frac)%Q -> (mid_frac < 1)%Q -> stack_ <> [] ->
   0 <= mid_layer < Z.of_nat (length stack_) /\
   is_Some (Py.index stack_ mid_layer) /\
   Py.index stack_ mid_layer = stack_ !! Z.to_nat mid_layer) /\
  ((1 <= mid_frac)%Q -> Py.index stack_ mid_layer = None).
Proof.
  intros mid_layer. subst mid_layer. rewrite int_scaled.
  set (n := Z.of_nat (length stack_)).
  destruct mid_frac as [a d]. unfold Qle, Qlt. simpl.
  assert (0 <= n) as Hn by lia.
  split.
  - intros Ha Had Hne.
    assert (0 < n) as Hpos.
    { destruct stack_; [done|]. subst n. simpl length. lia. }
    assert (0 <= a) as Ha' by lia. assert (a < Z.pos d) as Had' by lia.
    rewrite Z.quot_div_nonneg by nia.
    assert (0 <= a * n / Z.pos d < n) as Hmid.
    { split; [apply Z.div_pos; nia|].
      apply Z.div_lt_upper_bound; nia. }
    split; [exact Hmid|].
    assert (Py.index stack_ (a * n / Z.pos d)
            = stack_ !! Z.to_nat (a * n / Z.pos d)) as Hidx.
    { unfold Py.index. fold n.
      destruct (a * n / Z.pos d <? - n) eqn:Hlo; [lia|].
      destruct (n <=? a * n / Z.pos d) eqn:Hhi; [lia|]. simpl.
      destruct (a * n / Z.pos d <? 0) eqn:Hneg; [lia|done]. }
    split; [|exact Hidx].
    rewrite Hidx. apply lookup_lt_is_Some. lia.
  - intros Had. assert (Z.pos d <= a) as Had' by lia.
    rewrite Z.quot_div_nonneg by nia.
    assert (n <= a * n / Z.pos d) as Hmid.
    { apply Z.div_le_lower_bound; nia. }
    unfold Py.index. fold n.
    destruct (a * n / Z.pos d <? - n) eqn:Hlo; [done|].
    destruct (n <=? a * n / Z.pos d) eqn:Hhi; [done|]. lia.
Qed.

Lemma mid_layer_exists_witness :
  is_Some (Py.index small_stack
             (Py.int ((1 # 2) * inject_Z (Z.of_nat (length small_stack))))) /\
  Py.index small_stack
    (Py.int (1 * inject_Z (Z.of_nat (length small_stack)))) = None.
Proof.
  destruct (mid_layer_exists small_stack (1 # 2)) as [Hin _].
  destruct (mid_layer_exists small_stack 1) as [_ Hout].
  split.
  - apply Hin; [by unfold Qle|by unfold Qlt|discriminate].
  - apply Hout. by unfold Qle.
Defined.

(** X11.  With the channel names in order, [label] stops before it opens
    any window or writes anything when the stack cannot be used: OSError
    if the file cannot be read, IndexError if the middle layer does not
    exist or the stack has fewer than four channels. *)
Theorem label_needs_a_stack `{Host} (stack_path out : string) (mid_frac : Q)
    (channel_names : list string) (size : Q) (w : World) :
  last channel_names = Some "nuclear"%string ->
  (imread (stack_path +:+ ".tif") = None ->
   label stack_path out mid_frac channel_names size w
     = Raise (OSError (stack_path +:+ ".tif")) w) /\
  (forall stack_,
     imread (stack_path +:+ ".tif") = Some stack_ ->
     Py.index stack_
       (Py.int (mid_frac * inject_Z (Z.of_nat (length stack_)))) = None
     \/ (np.channels stack_ <= 3)%nat ->
     label stack_path out mid_frac channel_names size w = Raise IndexError w).
Proof.
  intros Hlast. split.
  - intros Hread. unfold label, bind. by rewrite index_last, Hlast, Hread.
  - intros stack_ Hread Hbad. unfold label, bind.
    rewrite index_last, Hlast, Hread. simpl.
    destruct (Py.index stack_ _) as [layer|] eqn:Hidx; [|done].
    destruct Hbad as [?|Hch]; [done|]. simpl.
    destruct (3 <? np.channels stack_)%nat eqn:Hlt; [|done].
    apply Nat.ltb_lt in Hlt. lia.
Qed.

Lemma label_needs_a_stack_witness :
  @label example_host "scans/other" "data" (1 # 2) default_channel_names 50
    diligent = Raise (OSError "scans/other.tif") diligent /\
  @label example_host "scans/embryo" "data" 1 default_channel_names 50
    diligent = Raise IndexError diligent.
Proof.
  destruct (@label_needs_a_stack example_host "scans/other" "data" (1 # 2)
              default_channel_names 50 diligent eq_refl) as [Hread _].
  destruct (@label_needs_a_stack example_host "scans/embryo" "data" 1
              default_channel_names 50 diligent eq_refl) as [_ Hindex].
  split.
  - apply Hread. reflexivity.
  - apply (Hindex small_stack); [reflexivity|]. left. reflexivity.
Defined.

(** ** The channel tables for any list of channel names *)




Section channel_tables_general.

Context `{Host}.


End channel_tables_general.



(** ** What is shown, printed and written, however a call ends *)

Lemma only_emits_ret ok {A} (a : A) : only_emits ok (ret a).
Proof. intros w. exists []. by rewrite app_nil_r. Qed.

Lemma only_emits_raise ok {A} e : only_emits ok (@raise A e).
Proof. intros w. exists []. by rewrite app_nil_r. Qed.

Lemma only_emits_or_raise ok {A} e (o : option A) : only_emits ok (or_raise e o).
Proof. intros w. exists []. rewrite app_nil_r. by destruct o. Qed.

Lemma only_emits_assert ok cond msg : only_emits ok (assert cond msg).
Proof. intros w. exists []. rewrite app_nil_r. by destruct cond. Qed.

Lemma only_emits_read ok l : only_emits ok (read l).
Proof.
  intros w. exists []. rewrite app_nil_r. unfold read.
  by destruct (heap w !! l).
Qed.

Lemma only_emits_alloc ok a : only_emits ok (alloc a).
Proof. intros w. exists []. by rewrite app_nil_r. Qed.

Lemma only_emits_draw ok l f : only_emits ok (draw l f).
Proof. intros w. exists []. by rewrite app_nil_r. Qed.

Lemma only_emits_effect (ok : Effect -> Prop) e : ok e -> only_emits ok (effect e).
Proof. intros He w. exists [e]. split; [done|]. by constructor. Qed.

Lemma only_emits_bind ok {A C} (m : M A) (k : A -> M C) :
  only_emits ok m -> (forall a, only_emits ok (k a)) ->
  only_emits ok (bind m k).
Proof.
  intros Hm Hk w. destruct (Hm w) as (added1 & Ht1 & Hok1). unfold bind.
  destruct (m w) as [a w1|e w1|w1]; simpl in *; [|by exists added1..].
  destruct (Hk a w1) as (added2 & Ht2 & Hok2).
  exists (added1 ++ added2). rewrite Ht2, Ht1, app_assoc.
  split; [done|]. by apply Forall_app.
Qed.

Lemma only_emits_weaken (ok ok' : Effect -> Prop) {A} (m : M A) :
  (forall e, ok e -> ok' e) -> only_emits ok m -> only_emits ok' m.
Proof.
  intros Himp Hm w. destruct (Hm w) as (added & Ht & Hok).
  exists added. split; [done|]. by eapply Forall_impl.
Qed.

Create HintDb only_emits.

#[local] Hint Resolve only_emits_ret only_emits_raise only_emits_or_raise
  only_emits_assert only_emits_read only_emits_alloc only_emits_draw
  : only_emits.

(** Walks down a computation written with [let!]; what is left are the
    effects and the calls. *)
Ltac only_emits_walk :=
  repeat first
    [ solve [auto with only_emits]
    | match goal with
      | |- only_emits _ (bind _ _) => apply only_emits_bind; [|intros ?]
      | |- only_emits _ (if ?c then _ else _) => destruct c
      | |- only_emits _ (match ?x with (_, _) => _ end) => destruct x
      end ].

Lemma get_mean_region_rec_emits sessions : forall c,
  only_emits (figure_or_notice (displayed c) (arg_name c))
    (get_mean_region_rec sessions c).
Proof.
  induction sessions as [|events sessions IH]; intros c w;
    cbn [get_mean_region_rec].
  - exists [figure (displayed c) (arg_name c)]. split; [done|].
    constructor; [by left|done].
  - destruct (after_show_spec c events) as (st & _ & _ & ->).
    destruct (last (recorded st)) as [sample|].
    + exists [figure (displayed c) (arg_name c)]. split; [done|].
      constructor; [by left|done].
    + destruct (IH (again c)
                  (emit (print "No region selected.")
                     (set_show_input sessions
                        (emit (figure (displayed c) (arg_name c)) w))))
        as (added & Ht & Hok).
      exists ([figure (displayed c) (arg_name c);
               print "No region selected."] ++ added).
      rewrite Ht. simpl. rewrite <- !app_assoc. split; [done|].
      constructor; [by left|]. constructor; [by right|]. exact Hok.
Qed.

Lemma pd_set_loc_emits ok key_ values df : only_emits ok (pd.set_loc key_ values df).
Proof. unfold pd.set_loc. only_emits_walk. Qed.

Lemma prefix_append a b : String.prefix a (a +:+ b) = true.
Proof.
  induction a as [|ch a IH]; simpl; [by destruct b|].
  by destruct (ascii_dec ch ch).
Qed.

Lemma prefix_dir dir rest : String.prefix (dir +:+ "/") (dir +:+ "/" +:+ rest) = true.
Proof.
  induction dir as [|ch dir IH]; simpl.
  - by destruct rest.
  - by destruct (ascii_dec ch ch).
Qed.

Section emitted.

Context `{Host}.

Lemma mouse_callback_emits window_name buffer ev roi_points :
  only_emits (in_window window_name)
    (mouse_callback window_name buffer ev roi_points).
Proof.
  unfold mouse_callback. only_emits_walk.
  by apply only_emits_effect.
Qed.

Lemma deliver_emits window_name buffer evs : forall roi_points,
  only_emits (in_window window_name)
    (deliver window_name buffer evs roi_points).
Proof.
  induction evs as [|ev evs IH]; intros roi_points; simpl.
  - apply only_emits_ret.
  - apply only_emits_bind; [apply mouse_callback_emits|]. intros r. apply IH.
Qed.

Lemma waitKey_loop_emits polls window_name buffer : forall roi_points,
  only_emits (in_window window_name)
    (waitKey_loop polls window_name buffer roi_points).
Proof.
  induction polls as [|p polls IH]; intros roi_points w;
    cbn [waitKey_loop].
  - exists []. by rewrite app_nil_r.
  - destruct (deliver_emits window_name buffer (mouse p) roi_points
                (set_waitKey_input polls w)) as (added1 & Ht1 & Hok1).
    destruct (deliver _ _ _ _ _) as [r w1|e w1|w1]; simpl in *;
      [|by exists added1..].
    destruct (_ =? ord_q); [by exists added1|].
    destruct (IH r w1) as (added2 & Ht2 & Hok2).
    exists (added1 ++ added2). rewrite Ht2, Ht1, app_assoc.
    split; [done|]. by apply Forall_app.
Qed.

Lemma get_spline_emits image_ name window_name :
  only_emits (in_window (spline_title name window_name))
    (get_spline image_ name window_name).
Proof.
  unfold get_spline. fold (spline_title name window_name).
  only_emits_walk; try by apply only_emits_effect.
  intros w. apply waitKey_loop_emits.
Qed.

Lemma get_contour_emits image_ name :
  only_emits (in_window ("Manually input Contour for " +:+ name))
    (get_contour image_ name).
Proof.
  unfold get_contour. apply only_emits_bind; [|intros r; apply only_emits_ret].
  apply (get_spline_emits image_ name
           (Some ("Manually input Contour for " +:+ name))).
Qed.

Lemma write_csv_emits dir rest df index :
  only_emits (output_under dir) (write_csv (dir +:+ "/" +:+ rest) df index).
Proof.
  unfold write_csv. only_emits_walk. apply only_emits_effect, prefix_dir.
Qed.

Lemma get_mean_region_output dir image_ high_contrast name size vmax :
  only_emits (output_under dir)
    (get_mean_region image_ high_contrast name size vmax).
Proof.
  intros w. unfold get_mean_region.
  destruct (get_mean_region_rec_emits (show_input w)
              {| arg_image := image_; arg_high_contrast := high_contrast;
                 arg_name := name; arg_size := size; arg_vmax := vmax |} w)
    as (added & Ht & Hok).
  exists added. split; [exact Ht|].
  eapply Forall_impl; [exact Hok|]. by intros e [-> | ->].
Qed.

Lemma label_channel_output dir layer channels_ name mid_layer size j
    channel_name dfs :
  only_emits (output_under dir)
    (label_channel layer channels_ name mid_layer size j channel_name dfs).
Proof.
  unfold label_channel. destruct dfs as [background_df signal_background_df].
  repeat first
    [ apply get_mean_region_output
    | apply pd_set_loc_emits
    | progress only_emits_walk ].
Qed.

Lemma label_channels_output dir layer channels_ name mid_layer size
    channel_names : forall j dfs,
  only_emits (output_under dir)
    (label_channels layer channels_ name mid_layer size j channel_names dfs).
Proof.
  induction channel_names as [|channel_name channel_names IH]; intros j dfs;
    simpl.
  - apply only_emits_ret.
  - apply only_emits_bind; [apply label_channel_output|]. intros dfs'.
    apply IH.
Qed.

Lemma window_is_no_output dir window_name e :
  in_window window_name e -> output_under dir e.
Proof. by destruct e. Qed.

Lemma label_output stack_path out mid_frac channel_names size :
  only_emits (output_under out)
    (label stack_path out mid_frac channel_names size).
Proof.
  unfold label.
  repeat first
    [ apply write_csv_emits
    | apply label_channels_output
    | eapply only_emits_weaken;
        [apply window_is_no_output|apply get_contour_emits]
    | eapply only_emits_weaken;
        [apply window_is_no_output|apply get_spline_emits]
    | apply only_emits_effect; exact I
    | progress only_emits_walk ].
Qed.

Lemma output_under_folder dir e : output_under dir e -> output_of_folder dir e.
Proof. by destruct e. Qed.

Lemma label_stacks_output folder data_out mid_frac channel_names total
    stack_names : forall i,
  only_emits (output_of_folder data_out)
    (label_stacks folder data_out mid_frac channel_names total i stack_names).
Proof.
  induction stack_names as [|name stack_names IH]; intros i; simpl.
  - apply only_emits_ret.
  - apply only_emits_bind; [by apply only_emits_effect|intros _].
    apply only_emits_bind; [|intros _; apply IH].
    eapply only_emits_weaken; [apply output_under_folder|apply label_output].
Qed.

Lemma label_folder_output folder mid_frac channel_names :
  only_emits
    (output_of_folder ("data/" +:+ Py.split_last "/" folder +:+ "_" +:+ now))
    (label_folder folder mid_frac channel_names).
Proof.
  unfold label_folder.
  repeat first
    [ apply label_stacks_output
    | apply only_emits_effect; done
    | progress only_emits_walk ].
Qed.

End emitted.

(** X13.  The two interactive calls touch nothing but the screen and the
    console, however they end (returning, raising, or still waiting).
    [get_spline] only opens, draws into and closes its own window;
    [get_mean_region] only opens figures, each of the same displayed image
    under the same title, and prints the notice "No region selected.".
    Neither writes a file or creates a directory. *)
Theorem interactive_calls_write_nothing `{Host} (image_ : positive)
    (name : string) (window_name : option string)
    (raw : image) (high_contrast : option image) (size : Q)
    (vmax : option Q) :
  only_emits (in_window (spline_title name window_name))
    (get_spline image_ name window_name) /\
  only_emits (figure_or_notice (from_option id raw high_contrast) name)
    (get_mean_region raw high_contrast name size vmax).
Proof.
  split; [apply get_spline_emits|].
  intros w. unfold get_mean_region.
  apply (get_mean_region_rec_emits (show_input w)
           {| arg_image := raw; arg_high_contrast := high_contrast;
              arg_name := name; arg_size := size; arg_vmax := vmax |} w).
Qed.

(** X14.  Everything [label] writes goes into [out]: however the call
    ends, each file written since it began has a path that starts with
    [out] and a slash, and no directory has been created.  For
    [label_folder] the same holds with the directory
    "data/<last part of folder>_<timestamp>", the only one it creates. *)
Theorem output_stays_in_its_directory `{Host} (folder stack_path out : string)
    (mid_frac : Q) (channel_names : list string) (size : Q) :
  only_emits (output_under out)
    (label stack_path out mid_frac channel_names size) /\
  only_emits
    (output_of_folder ("data/" +:+ Py.split_last "/" folder +:+ "_" +:+ now))
    (label_folder folder mid_frac channel_names).
Proof. split; [apply label_output|apply label_folder_output]. Qed.

(** ** label_folder: which files it takes, and under which name *)

Lemma no_stack_names (names : list string) :
  Forall (fun name => Py.endswith name ".tif" = false) names ->
  filter (fun name => Is_true (Py.endswith name ".tif")) names = [].
Proof.
  induction 1 as [|name names Hname _ IH]; [done|].
  rewrite filter_cons_False; [exact IH|]. cbv beta. rewrite Hname. by intros [].
Qed.

(** X15.  A folder without ".tif" files is a short run: with the folder
    there, the channel names in order and the listing free of names that
    end in ".tif", [label_folder] creates its output directory, prints
    that it has finished, and returns the directory; no window is opened
    and no stack is read. *)
Theorem label_folder_without_stacks `{Host} (folder : string) (mid_frac : Q)
    (channel_names names : list string) (w : World) :
  path_exists folder = true ->
  last channel_names = Some "nuclear"%string ->
  listdir folder = Some names ->
  Forall (fun name => Py.endswith name ".tif" = false) names ->
  can_makedirs ("data/" +:+ Py.split_last "/" folder +:+ "_" +:+ now) = true ->
  label_folder folder mid_frac channel_names w =
    Return ("data/" +:+ Py.split_last "/" folder +:+ "_" +:+ now)
      (emit (print "Finished labelling all images.")
         (emit (makedirs ("data/" +:+ Py.split_last "/" folder +:+ "_" +:+ now))
            w)).
Proof.
  intros Hfolder Hlast Hlist Hnames Hmake.
  unfold label_folder, bind.
  rewrite Hfolder, index_last, Hlast. simpl.
  rewrite Hlist. simpl. rewrite (no_stack_names names Hnames), Hmake.
  reflexivity.
Qed.

Lemma label_folder_without_stacks_witness :
  @label_folder bare_host "scans" (1 # 2) default_channel_names quiet =
    Return "data/scans_20240506120000"
      (emit (print "Finished labelling all images.")
         (emit (makedirs "data/scans_20240506120000") quiet)).
Proof.
  apply (@label_folder_without_stacks bare_host "scans" (1 # 2)
           default_channel_names ["notes.txt"; "embryo.tiff"; "tif"]%string
           quiet).
  - reflexivity.
  - reflexivity.
  - reflexivity.
  - repeat constructor.
  - reflexivity.
Defined.

Lemma split_first_cons_other sep c s :
  Ascii.eqb c sep = false ->
  Py.split_first sep (String c s) = String c (Py.split_first sep s).
Proof.
  intros Hc. unfold Py.split_first. simpl.
  destruct (Py.split sep s) as [word words]. by rewrite Hc.
Qed.

Lemma split_first_cons_sep sep s : Py.split_first sep (String sep s) = "".
Proof.
  unfold Py.split_first. simpl.
  destruct (Py.split sep s) as [word words]. by rewrite Ascii.eqb_refl.
Qed.

Lemma substring_all (s : string) : substring 0 (String.length s) s = s.
Proof. induction s as [|c s IH]; simpl; [done|]. by rewrite IH. Qed.

Lemma substring_append (s t : string) (k : nat) :
  substring (String.length s) k (s +:+ t) = substring 0 k t.
Proof. induction s as [|c s IH]; simpl; [done|]. exact IH. Qed.

Lemma length_append (s t : string) :
  String.length (s +:+ t) = (String.length s + String.length t)%nat.
Proof. induction s as [|c s IH]; simpl; [done|]. by rewrite IH. Qed.

Lemma append_assoc (a b c : string) : (a +:+ b) +:+ c = a +:+ b +:+ c.
Proof.
  induction a as [|ch a IH]; [done|].
  change (String ch ((a +:+ b) +:+ c) = String ch (a +:+ b +:+ c)).
  by rewrite IH.
Qed.

Lemma append_inj_l (a b c : string) : a +:+ b = a +:+ c -> b = c.
Proof.
  induction a as [|ch a IH]; [done|].
  change (String ch (a +:+ b) = String ch (a +:+ c) -> b = c).
  intros [= Heq]. by apply IH.
Qed.

(** Every name made of a stem and ".tif" is taken. *)
Lemma endswith_tif (s : string) : Py.endswith (s +:+ ".tif") ".tif" = true.
Proof.
  unfold Py.endswith. rewrite length_append.
  replace (String.length s + String.length ".tif" - String.length ".tif")%nat
    with (String.length s) by lia.
  rewrite substring_append.
  rewrite (proj2 (Nat.leb_le _ _)) by lia. reflexivity.
Qed.

(** The part of a name before its first dot. *)
Lemma split_first_stem (stem tail : string) :
  contains "." stem = false ->
  Py.split_first "." (stem +:+ "." +:+ tail) = stem.
Proof.
  intros Hstem. induction stem as [|c stem IH].
  - apply (split_first_cons_sep "." tail).
  - simpl in Hstem. apply orb_false_iff in Hstem as [Hc Hstem].
    change (String c stem +:+ "." +:+ tail)
      with (String c (stem +:+ "." +:+ tail)).
    rewrite split_first_cons_other by done. by rewrite IH.
Qed.

(** The first name of the listing that ends in ".tif" gives the first
    stack name. *)
Lemma stack_names_first (skipped later : list string) (name : string) :
  Forall (fun name => Py.endswith name ".tif" = false) skipped ->
  Py.endswith name ".tif" = true ->
  stack_names (skipped ++ name :: later)
    = Py.split_first "." name :: stack_names later.
Proof.
  intros Hskipped Hname. unfold stack_names.
  rewrite filter_app, (no_stack_names skipped Hskipped).
  rewrite filter_cons_True; [reflexivity|].
  cbv beta. by rewrite Hname.
Qed.

(** X16.  [label_folder] takes every name of the listing that ends in
    ".tif" and labels it under the part of the name before its first dot.
    When the first such name is "stem.tail" with no dot in the stem, then
    after creating its output directory [label_folder] announces the stack
    "stem" as the first of all names that end in ".tif", and goes on as
    [label] called with the path "folder/stem", followed by the later
    stacks.  The file this call of [label] reads is "folder/stem.tif": if
    it cannot be read, [label_folder] ends there with an OSError for this
    path.  This is the file that was listed exactly when the tail is
    "tif"; for a name like "a.b.tif" it is another file, "a.tif". *)
Theorem label_folder_reads_stem `{Host} (folder : string) (mid_frac : Q)
    (channel_names skipped later : list string) (stem tail : string)
    (w : World) :
  path_exists folder = true ->
  last channel_names = Some "nuclear"%string ->
  listdir folder = Some (skipped ++ (stem +:+ "." +:+ tail) :: later) ->
  Forall (fun name => Py.endswith name ".tif" = false) skipped ->
  Py.endswith (stem +:+ "." +:+ tail) ".tif" = true ->
  contains "." stem = false ->
  can_makedirs ("data/" +:+ Py.split_last "/" folder +:+ "_" +:+ now) = true ->
  label_folder folder mid_frac channel_names w =
    (label (folder +:+ "/" +:+ stem)
       ("data/" +:+ Py.split_last "/" folder +:+ "_" +:+ now)
       mid_frac channel_names 50 ;;;
     label_stacks folder
       ("data/" +:+ Py.split_last "/" folder +:+ "_" +:+ now)
       mid_frac channel_names (S (length (stack_names later))) 1
       (stack_names later) ;;;
     effect (print "Finished labelling all images.") ;;;
     ret ("data/" +:+ Py.split_last "/" folder +:+ "_" +:+ now))
      (emit (print ("Labelling " +:+ stem +:+ " (" +:+ pretty 1%nat +:+ "/"
                    +:+ pretty (S (length (stack_names later))) +:+ ")."))
         (emit (makedirs ("data/" +:+ Py.split_last "/" folder +:+ "_" +:+ now))
            w)) /\
  (imread ((folder +:+ "/" +:+ stem) +:+ ".tif") = None ->
   label_folder folder mid_frac channel_names w =
     Raise (OSError ((folder +:+ "/" +:+ stem) +:+ ".tif"))
       (emit (print ("Labelling " +:+ stem +:+ " (" +:+ pretty 1%nat +:+ "/"
                     +:+ pretty (S (length (stack_names later))) +:+ ")."))
          (emit (makedirs ("data/" +:+ Py.split_last "/" folder +:+ "_" +:+ now))
             w))) /\
  ((folder +:+ "/" +:+ stem) +:+ ".tif"
     = folder +:+ "/" +:+ (stem +:+ "." +:+ tail)
   <-> tail = "tif"%string).
Proof.
  intros Hfolder Hlast Hlist Hskipped Hname Hstem Hmake.
  assert (label_folder folder mid_frac channel_names w =
    (label (folder +:+ "/" +:+ stem)
       ("data/" +:+ Py.split_last "/" folder +:+ "_" +:+ now)
       mid_frac channel_names 50 ;;;
     label_stacks folder
       ("data/" +:+ Py.split_last "/" folder +:+ "_" +:+ now)
       mid_frac channel_names (S (length (stack_names later))) 1
       (stack_names later) ;;;
     effect (print "Finished labelling all images.") ;;;
     ret ("data/" +:+ Py.split_last "/" folder +:+ "_" +:+ now))
      (emit (print ("Labelling " +:+ stem +:+ " (" +:+ pretty 1%nat +:+ "/"
                    +:+ pretty (S (length (stack_names later))) +:+ ")."))
         (emit (makedirs ("data/" +:+ Py.split_last "/" folder +:+ "_" +:+ now))
            w))) as Hrun.
  { unfold label_folder, bind.
    rewrite Hfolder, index_last, Hlast. simpl.
    rewrite Hlist. simpl.
    change (map (Py.split_first ".")
              (filter (fun name => Is_true (Py.endswith name ".tif"))
                 (skipped ++ (stem +:+ "." +:+ tail) :: later)))
      with (stack_names (skipped ++ (stem +:+ "." +:+ tail) :: later)).
    rewrite (stack_names_first skipped later _ Hskipped Hname).
    rewrite (split_first_stem stem tail Hstem), Hmake.
    cbn [label_stacks length]. unfold bind. simpl.
    by destruct (label _ _ _ _ _ _). }
  split; [exact Hrun|]. split.
  - intros Hread. rewrite Hrun. unfold bind at 1. unfold label, bind.
    rewrite index_last, Hlast. simpl. rewrite Hread. reflexivity.
  - rewrite !append_assoc. split.
    + intros Heq. apply append_inj_l, (append_inj_l "/"), append_inj_l in Heq.
      change (String "." "tif" = String "." tail) in Heq.
      by injection Heq as <-.
    + by intros ->.
Qed.

Lemma label_folder_reads_stem_witness :
  @label_folder dotted_host "scans" (1 # 2) default_channel_names quiet =
    Raise (OSError "scans/a.tif")
      (emit (print "Labelling a (1/1).")
         (emit (makedirs "data/scans_20240506120000") quiet)) /\
  @imread dotted_host "scans/a.b.tif" = Some small_stack.
Proof.
  split; [|reflexivity].
  destruct (@label_folder_reads_stem dotted_host "scans" (1 # 2)
              default_channel_names ["notes.txt"]%string [] "a" "b.tif" quiet)
    as (_ & Hraise & _).
  - reflexivity.
  - reflexivity.
  - reflexivity.
  - repeat constructor.
  - reflexivity.
  - reflexivity.
  - reflexivity.
  - apply Hraise. reflexivity.
Defined.

(** ** Cycling through the labels of the shape annotator *)

Section label_cycle.

Import shapes_annotater.

Lemma index_of_lookup x labels i :
  index_of x labels = Some i -> labels !! i = Some x.
Proof.
  revert i. induction labels as [|y labels IH]; intros i; simpl; [done|].
  destruct (String.eqb y x) eqn:Hy.
  - apply String.eqb_eq in Hy as ->. by intros [= <-].
  - destruct (index_of x labels) as [j|]; [|done].
    intros [= <-]. by apply IH.
Qed.

Lemma index_of_None x labels : index_of x labels = None <-> x ∉ labels.
Proof.
  induction labels as [|y labels IH]; simpl.
  - split; [intros _; apply not_elem_of_nil|done].
  - destruct (String.eqb y x) eqn:Hy.
    + apply String.eqb_eq in Hy as ->. split; [done|].
      intros Hin. exfalso. apply Hin. left.
    + apply String.eqb_neq in Hy.
      rewrite not_elem_of_cons, <- IH.
      destruct (index_of x labels); simpl; split; try done.
      by intros [_ ?].
Qed.

(** In a list without repetitions, a label is found where it stands. *)
Lemma index_of_NoDup x labels i :
  NoDup labels -> labels !! i = Some x -> index_of x labels = Some i.
Proof.
  intros Hnd. revert i.
  induction Hnd as [|y labels Hy Hnd IH]; intros i Hi; [done|].
  simpl. destruct i as [|i]; simpl in Hi.
  - injection Hi as ->. by rewrite String.eqb_refl.
  - destruct (String.eqb y x) eqn:Hyx.
    + apply String.eqb_eq in Hyx as ->. exfalso. apply Hy.
      by eapply list_elem_of_lookup_2.
    + by rewrite (IH i Hi).
Qed.

Lemma index_nat {A} (l : list A) (m : nat) :
  (m < length l)%nat -> Py.index l (Z.of_nat m) = l !! m.
Proof.
  intros Hm. unfold Py.index.
  destruct (Z.of_nat m <? - Z.of_nat (length l)) eqn:Hlo; [lia|].
  destruct (Z.of_nat (length l) <=? Z.of_nat m) eqn:Hhi; [lia|]. simpl.
  destruct (Z.of_nat m <? 0) eqn:Hneg; [lia|]. by rewrite Nat2Z.id.
Qed.

(** [next_label] goes to the label after the first occurrence of the
    current one, from the last position to the first. *)
Lemma next_label_at labels layer i :
  index_of (current_label layer) labels = Some i ->
  exists new_label,
    labels !! ((i + 1) mod length labels)%nat = Some new_label /\
    next_label labels layer = Done (set_label new_label layer).
Proof.
  intros Hi. pose proof (index_of_lookup _ _ _ Hi) as Hlook.
  apply lookup_lt_Some in Hlook.
  assert (((i + 1) mod length labels) < length labels)%nat as Hlt.
  { apply Nat.mod_upper_bound. lia. }
  destruct (lookup_lt_is_Some_2 labels _ Hlt) as [new_label Hnew].
  exists new_label. split; [exact Hnew|].
  unfold next_label. rewrite Hi.
  replace ((Z.of_nat i + 1) mod Z.of_nat (length labels))
    with (Z.of_nat ((i + 1) mod length labels)).
  - by rewrite index_nat, Hnew.
  - rewrite Nat2Z.inj_mod. f_equal. lia.
Qed.

Lemma prev_label_at labels layer i :
  index_of (current_label layer) labels = Some i ->
  exists new_label,
    labels !! ((i + (length labels - 1)) mod length labels)%nat
      = Some new_label /\
    prev_label labels layer = Done (set_label new_label layer).
Proof.
  intros Hi. pose proof (index_of_lookup _ _ _ Hi) as Hlook.
  apply lookup_lt_Some in Hlook.
  assert (((i + (length labels - 1)) mod length labels) < length labels)%nat
    as Hlt.
  { apply Nat.mod_upper_bound. lia. }
  destruct (lookup_lt_is_Some_2 labels _ Hlt) as [new_label Hnew].
  exists new_label. split; [exact Hnew|].
  unfold prev_label. rewrite Hi.
  replace ((Z.of_nat i - 1 + Z.of_nat (length labels))
             mod Z.of_nat (length labels))
    with (Z.of_nat ((i + (length labels - 1)) mod length labels)).
  - by rewrite index_nat, Hnew.
  - rewrite Nat2Z.inj_mod. f_equal. lia.
Qed.

Lemma set_label_back layer new_label :
  set_label (current_label layer) (set_label new_label layer) = layer.
Proof. by destruct layer. Qed.

Lemma step_back (i n : nat) :
  (i < n)%nat -> (((i + 1) mod n + (n - 1)) mod n = i)%nat.
Proof.
  intros Hi. destruct (decide (i + 1 = n)%nat) as [Heq|Hne].
  - rewrite Heq, Nat.Div0.mod_same. simpl. rewrite Nat.mod_small; lia.
  - rewrite (Nat.mod_small (i + 1)) by lia.
    replace (i + 1 + (n - 1))%nat with (i + 1 * n)%nat by lia.
    rewrite Nat.Div0.mod_add. apply Nat.mod_small. lia.
Qed.

Lemma step_forth (i n : nat) :
  (i < n)%nat -> (((i + (n - 1)) mod n + 1) mod n = i)%nat.
Proof.
  intros Hi. destruct (decide (i = 0)%nat) as [->|Hne].
  - rewrite (Nat.mod_small (0 + (n - 1))) by lia.
    replace (0 + (n - 1) + 1)%nat with n by lia.
    apply Nat.Div0.mod_same.
  - replace (i + (n - 1))%nat with ((i - 1) + 1 * n)%nat by lia.
    rewrite Nat.Div0.mod_add, (Nat.mod_small (i - 1)) by lia.
    replace (i - 1 + 1)%nat with i by lia. apply Nat.mod_small. lia.
Qed.

End label_cycle.

(** X17.  With labels that are all different, "next" and "previous" undo
    each other: from any current label of the list, [next_label] followed
    by [prev_label], and [prev_label] followed by [next_label], both
    succeed and leave the layer exactly as it was. *)
Theorem next_and_prev_undo_each_other (labels : list string)
    (layer : shapes_annotater.ShapesLayer) :
  NoDup labels ->
  shapes_annotater.current_label layer ∈ labels ->
  (exists layer',
     shapes_annotater.next_label labels layer = shapes_annotater.Done layer' /\
     shapes_annotater.prev_label labels layer'
       = shapes_annotater.Done layer) /\
  (exists layer',
     shapes_annotater.prev_label labels layer = shapes_annotater.Done layer' /\
     shapes_annotater.next_label labels layer'
       = shapes_annotater.Done layer).
Proof.
  intros Hnd Hin.
  apply list_elem_of_lookup in Hin as [i Hi].
  pose proof (lookup_lt_Some _ _ _ Hi) as Hlt.
  pose proof (index_of_NoDup _ _ _ Hnd Hi) as Hidx.
  split.
  - destruct (next_label_at labels layer i Hidx) as (l1 & Hl1 & Hnext).
    eexists. split; [exact Hnext|].
    destruct (prev_label_at labels (shapes_annotater.set_label l1 layer)
                ((i + 1) mod length labels)) as (l2 & Hl2 & Hprev).
    { by apply index_of_NoDup. }
    rewrite Hprev. f_equal.
    rewrite step_back in Hl2 by done.
    assert (l2 = shapes_annotater.current_label layer) as -> by congruence.
    apply set_label_back.
  - destruct (prev_label_at labels layer i Hidx) as (l1 & Hl1 & Hprev).
    eexists. split; [exact Hprev|].
    destruct (next_label_at labels (shapes_annotater.set_label l1 layer)
                ((i + (length labels - 1)) mod length labels))
      as (l2 & Hl2 & Hnext).
    { by apply index_of_NoDup. }
    rewrite Hnext. f_equal.
    rewrite step_forth in Hl2 by done.
    assert (l2 = shapes_annotater.current_label layer) as -> by congruence.
    apply set_label_back.
Qed.

Lemma next_and_prev_undo_each_other_witness :
  exists layer',
    shapes_annotater.next_label ["head"; "tail"; "left fin"; "right fin"]%string
      {| shapes_annotater.current_label := "right fin";
         shapes_annotater.mode := "add";
         shapes_annotater.selected_data := ∅ |}
      = shapes_annotater.Done layer' /\
    shapes_annotater.prev_label ["head"; "tail"; "left fin"; "right fin"]%string
      layer'
      = shapes_annotater.Done
          {| shapes_annotater.current_label := "right fin";
             shapes_annotater.mode := "add";
             shapes_annotater.selected_data := ∅ |}.
Proof.
  apply (next_and_prev_undo_each_other
           ["head"; "tail"; "left fin"; "right fin"]%string
           {| shapes_annotater.current_label := "right fin";
              shapes_annotater.mode := "add";
              shapes_annotater.selected_data := ∅ |}).
  - compute_done.
  - compute_done.
Defined.

(** X18.  Shapes are labelled round-robin.  With the layer in "add" mode
    and labels that are all different, [k] clicks starting on the label at
    position [i] all succeed and end on the label at position
    [(i + k) mod len(labels)]; the layer stays in "add" mode, and after at
    least one click nothing is selected. *)
Theorem clicks_go_round_robin (labels : list string) (k i : nat)
    (layer : shapes_annotater.ShapesLayer) :
  NoDup labels ->
  shapes_annotater.mode layer = "add"%string ->
  labels !! i = Some (shapes_annotater.current_label layer) ->
  exists layer',
    shapes_annotater.repeat_click k labels layer
      = shapes_annotater.Done layer' /\
    labels !! ((i + k) mod length labels)%nat
      = Some (shapes_annotater.current_label layer') /\
    shapes_annotater.mode layer' = "add"%string /\
    ((0 < k)%nat -> shapes_annotater.selected_data layer' = ∅).
Proof.
  intros Hnd. revert i layer.
  induction k as [|k IH]; intros i layer Hmode Hi.
  - exists layer. split; [done|].
    rewrite Nat.add_0_r, Nat.mod_small by (by eapply lookup_lt_Some).
    split; [done|]. split; [done|]. lia.
  - pose proof (lookup_lt_Some _ _ _ Hi) as Hlt.
    destruct layer as [current mode_ selected]. simpl in Hmode, Hi.
    subst mode_.
    set (cleared := {| shapes_annotater.current_label := current;
                       shapes_annotater.mode := "add";
                       shapes_annotater.selected_data := ∅ |}).
    destruct (next_label_at labels cleared i) as (l1 & Hl1 & Hnext).
    { by apply index_of_NoDup. }
    destruct (IH ((i + 1) mod length labels)%nat
                (shapes_annotater.set_label l1 cleared))
      as (layer' & Hrun & Hlabel & Hmode' & Hsel); [done|done|].
    exists layer'. cbn [shapes_annotater.repeat_click].
    change (shapes_annotater.next_on_click labels
              {| shapes_annotater.current_label := current;
                 shapes_annotater.mode := "add";
                 shapes_annotater.selected_data := selected |})
      with (shapes_annotater.next_label labels cleared).
    rewrite Hnext.
    split; [exact Hrun|]. split.
    { rewrite <- Hlabel, Nat.Div0.add_mod_idemp_l. f_equal. f_equal. lia. }
    split; [exact Hmode'|]. intros _.
    destruct k as [|k]; [|apply Hsel; lia].
    by injection Hrun as <-.
Qed.

Lemma clicks_go_round_robin_witness :
  exists layer',
    shapes_annotater.repeat_click 6
      ["head"; "tail"; "left fin"; "right fin"]%string
      {| shapes_annotater.current_label := "tail";
         shapes_annotater.mode := "add";
         shapes_annotater.selected_data := {[ 0%nat ]} |}
      = shapes_annotater.Done layer' /\
    shapes_annotater.current_label layer' = "right fin"%string.
Proof.
  destruct (clicks_go_round_robin
              ["head"; "tail"; "left fin"; "right fin"]%string 6 1
              {| shapes_annotater.current_label := "tail";
                 shapes_annotater.mode := "add";
                 shapes_annotater.selected_data := {[ 0%nat ]} |})
    as (layer' & Hrun & Hlabel & _).
  - compute_done.
  - reflexivity.
  - reflexivity.
  - exists layer'. split; [exact Hrun|].
    simpl in Hlabel. by injection Hlabel as <-.
Defined.

(** X19.  The current label never leaves the list, and a label from
    outside is an error.  When [next_label] or [prev_label] succeeds, the
    new current label is one of [labels] and nothing else of the layer
    has changed; they fail only with ValueError, exactly when the current
    label is not in [labels], and then leave the layer alone.  A click in
    "add" mode on such a layer fails the same way but has already emptied
    the selection; a click in any other mode does nothing at all. *)
Theorem labels_stay_in_the_list (labels : list string)
    (layer : shapes_annotater.ShapesLayer) :
  (forall binding,
     binding = shapes_annotater.next_label \/
     binding = shapes_annotater.prev_label ->
     match binding labels layer with
     | shapes_annotater.Done layer' =>
         shapes_annotater.current_label layer ∈ labels /\
         shapes_annotater.current_label layer' ∈ labels /\
         shapes_annotater.mode layer' = shapes_annotater.mode layer /\
         shapes_annotater.selected_data layer'
           = shapes_annotater.selected_data layer
     | shapes_annotater.Failed e layer' =>
         e = ValueError /\ layer' = layer /\
         shapes_annotater.current_label layer ∉ labels
     end) /\
  (shapes_annotater.mode layer <> "add"%string ->
   shapes_annotater.next_on_click labels layer = shapes_annotater.Done layer) /\
  (shapes_annotater.mode layer = "add"%string ->
   shapes_annotater.current_label layer ∉ labels ->
   shapes_annotater.next_on_click labels layer =
     shapes_annotater.Failed ValueError
       {| shapes_annotater.current_label :=
            shapes_annotater.current_label layer;
          shapes_annotater.mode := shapes_annotater.mode layer;
          shapes_annotater.selected_data := ∅ |}).
Proof.
  split; [|split].
  - intros binding Hb.
    destruct (shapes_annotater.index_of
                (shapes_annotater.current_label layer) labels)
      as [i|] eqn:Hi.
    + assert (shapes_annotater.current_label layer ∈ labels) as Hin.
      { eapply list_elem_of_lookup_2. by apply index_of_lookup. }
      destruct Hb as [-> | ->].
      * destruct (next_label_at labels layer i Hi) as (l1 & Hl1 & ->).
        split; [exact Hin|]. split; [|done].
        by eapply list_elem_of_lookup_2.
      * destruct (prev_label_at labels layer i Hi) as (l1 & Hl1 & ->).
        split; [exact Hin|]. split; [|done].
        by eapply list_elem_of_lookup_2.
    + assert (shapes_annotater.current_label layer ∉ labels) as Hout
        by (by apply index_of_None).
      destruct Hb as [-> | ->];
        unfold shapes_annotater.next_label, shapes_annotater.prev_label;
        by rewrite Hi.
  - intros Hmode. unfold shapes_annotater.next_on_click.
    apply String.eqb_neq in Hmode. by rewrite Hmode.
  - intros Hmode Hout. unfold shapes_annotater.next_on_click.
    rewrite Hmode. change (String.eqb "add" "add") with true. cbv iota.
    unfold shapes_annotater.next_label. simpl.
    apply index_of_None in Hout. by rewrite Hout.
Qed.

Lemma labels_stay_in_the_list_witness :
  shapes_annotater.next_on_click ["head"; "tail"]%string
    {| shapes_annotater.current_label := "fin";
       shapes_annotater.mode := "add";
       shapes_annotater.selected_data := {[ 2%nat ]} |}
  = shapes_annotater.Failed ValueError
      {| shapes_annotater.current_label := "fin";
         shapes_annotater.mode := "add";
         shapes_annotater.selected_data := ∅ |} /\
  shapes_annotater.next_on_click ["head"; "tail"]%string
    {| shapes_annotater.current_label := "fin";
       shapes_annotater.mode := "select";
       shapes_annotater.selected_data := {[ 2%nat ]} |}
  = shapes_annotater.Done
      {| shapes_annotater.current_label := "fin";
         shapes_annotater.mode := "select";
         shapes_annotater.selected_data := {[ 2%nat ]} |}.
Proof.
  destruct (labels_stay_in_the_list ["head"; "tail"]%string
              {| shapes_annotater.current_label := "fin";
                 shapes_annotater.mode := "add";
                 shapes_annotater.selected_data := {[ 2%nat ]} |})
    as (_ & _ & Hadd).
  destruct (labels_stay_in_the_list ["head"; "tail"]%string
              {| shapes_annotater.current_label := "fin";
                 shapes_annotater.mode := "select";
                 shapes_annotater.selected_data := {[ 2%nat ]} |})
    as (_ & Hother & _).
  split.
  - apply Hadd; [reflexivity|]. compute_done.
  - apply Hother. discriminate.
Defined.

(** ** The two tests *)

Lemma related_raise {A} e : related (@raise A e) (@raise A e).
Proof. by intros w1 w2 Hw. Qed.

(** X20.  The two tests are one test under two window titles: run with
    the same files and the same operator, [test_get_contour] ends as
    [test_get_spline] does (both return, both raise the same exception, or
    both keep waiting), with the same arrays and unread input and with
    traces equal up to window names.  Neither looks at the points that
    come back. *)
Theorem tests_differ_in_title_only `{Host} (w : World) :
  outcome_alike (test_labelling.test_get_spline w)
                (test_labelling.test_get_contour w).
Proof.
  apply (related_bind test_labelling.load_img test_labelling.load_img);
    [| |apply alike_refl].
  - unfold test_labelling.load_img.
    apply related_bind; [apply related_or_raise|intros stack_].
    apply related_bind; [apply related_or_raise|intros plane].
    apply related_bind; [|intros _; apply related_alloc].
    destruct (3 <? np.channels stack_)%nat;
      [apply related_ret|apply related_raise].
  - intros img. apply related_bind; [|intros _; apply related_ret].
    intros w1 w2 Hw.
    pose proof (get_spline_related img test_labelling.filename None
                  (Some ("Manually input Contour for "
                         +:+ test_labelling.filename)) w1 w2 Hw) as Hrel.
    unfold get_contour, bind at 1.
    destruct (get_spline img test_labelling.filename None w1)
      as [r1 w1'|e1 w1'|w1'],
      (get_spline img test_labelling.filename (Some _) w2)
      as [r2 w2'|e2 w2'|w2']; done.
Qed.
